(** * Preview-mode demo: a shallow embedding of [src/pages/index.tsx]

    The page module has a server half ([getStaticProps], which reads a
    snapshot of edits from S3 when the request is in Preview Mode) and a
    client half (the [Home] component, whose [share] callback scrapes the
    editable regions of the document and posts them to [/api/save]).

    Strings are sequences of bytes (UTF-8), as the bodies stored in S3 are;
    JavaScript exceptions are values of [exn] carried in the left summand
    of a sum; promises are modelled by the outcome they settle with. *)

From stdpp Require Import gmap strings list sorting.
From Stdlib Require Import ZArith Lia Ascii String.

Open Scope string_scope.

(** ** JavaScript values that cross the module's boundaries *)

Module JS.

(** What a [catch] clause can receive here.  [AWSError] is the error
    object of the aws-sdk: [statusCode] is the HTTP status of the
    provider's answer and is undefined when no answer was received. *)
Inductive exn : Type :=
| AWSError (statusCode : option Z) (code : string) (message : string)
| SyntaxError (message : string)
| TypeError (message : string).

(** [e.statusCode]: only the provider's error objects carry the property. *)
Definition statusCode (e : exn) : option Z :=
  match e with
  | AWSError sc _ _ => sc
  | SyntaxError _ | TypeError _ => None
  end.

(** The result of an expression that may throw. *)
Definition result (A : Type) : Type := exn + A.

Definition ret {A} (a : A) : result A := inr a.
Definition throw {A} (e : exn) : result A := inl e.
Definition bind {A B} (m : result A) (k : A -> result B) : result B :=
  match m with
  | inl e => inl e
  | inr a => k a
  end.

(** [try { body } catch (e) { handler e }] *)
Definition try_catch {A} (body : result A) (handler : exn -> A) : A :=
  match body with
  | inr a => a
  | inl e => handler e
  end.

(** [p.finally(f)] on the state: [f] runs whatever [p] settled with. *)
Definition finally {S} (settled : S) (f : S -> S) : S := f settled.

(** JSON values, as [JSON.parse] builds them.  A number is kept as the
    text of its literal and is not rounded to a double, so two literals
    of one number are different values here; an object keeps its
    members in source order, a later member of the same name shadowing
    an earlier one on lookup. *)
#[warnings="-register-all"]
Inductive json : Type :=
| JNull
| JBool (b : bool)
| JNumber (literal : string)
| JString (s : string)
| JArray (elements : list json)
| JObject (members : list (string * json)).

(** [o.k] for a parsed object [o]; [None] is [undefined]. *)
Fixpoint lookup_member (k : string) (ms : list (string * json)) : option json :=
  match ms with
  | [] => None
  | (k', v) :: ms' =>
      match lookup_member k ms' with
      | Some w => Some w
      | None => if String.eqb k k' then Some v else None
      end
  end.

(** Property access [v.k] on any JSON value: it throws on [null], and is
    [undefined] on the primitives and (for a non-index name) on arrays. *)
Definition get_property (v : json) (k : string) : result (option json) :=
  match v with
  | JNull => throw (TypeError "Cannot read property of null")
  | JObject ms => ret (lookup_member k ms)
  | _ => ret None
  end.

Definition is_digit (c : ascii) : bool :=
  (48 <=? nat_of_ascii c)%nat && (nat_of_ascii c <=? 57)%nat.

Definition digit_value (c : ascii) : N := N.of_nat (nat_of_ascii c - 48).

(** The digits of a literal up to its exponent mark, read as one
    integer; how many of them follow the point; and the text after the
    mark. *)
Fixpoint scan_mantissa (s : string) (m : N) (in_fraction : bool) (f : Z) : N * Z * string :=
  match s with
  | EmptyString => (m, f, EmptyString)
  | String c r =>
      if Ascii.eqb c "e" || Ascii.eqb c "E" then (m, f, r)
      else if Ascii.eqb c "." then scan_mantissa r m true f
      else if is_digit c
      then scan_mantissa r (m * 10 + digit_value c)%N in_fraction
             (if in_fraction then (f + 1)%Z else f)
      else scan_mantissa r m in_fraction f
  end.

Fixpoint scan_digits (s : string) (acc : N) : N :=
  match s with
  | EmptyString => acc
  | String c r => scan_digits r (if is_digit c then (acc * 10 + digit_value c)%N else acc)
  end.

Definition exponent_value (s : string) : Z :=
  match s with
  | String "-" r => (- Z.of_N (scan_digits r 0))%Z
  | _ => Z.of_N (scan_digits s 0)
  end.

(** The number a literal denotes is zero once rounded to a double: its
    digits are all zero, or its value [m * 10 ^ x] is at most 2 ^ -1075,
    half of the least positive double (a tie rounds to the even
    neighbour, which is zero). *)
Definition literal_is_zero (s : string) : bool :=
  let '(m, f, e) := scan_mantissa s 0 false 0 in
  let x := (exponent_value e - f)%Z in
  (m =? 0)%N || ((x <? 0)%Z && (Z.of_N m * 2 ^ 1075 <=? 10 ^ (- x))%Z).

(** ToBoolean, for the operand of [&&]. *)
Definition truthy (v : option json) : bool :=
  match v with
  | None | Some JNull => false
  | Some (JBool b) => b
  | Some (JNumber l) => negb (literal_is_zero l)
  | Some (JString s) => negb (String.eqb s EmptyString)
  | Some (JArray _) | Some (JObject _) => true
  end.

End JS.

Export JS.

Declare Scope js_scope.
Notation "x <- m ;; k" := (bind m (fun x => k))
  (at level 60, m at next level, right associativity) : js_scope.
Open Scope js_scope.

(** ** The [JSON] object

    [JSON.stringify] and [JSON.parse] over byte strings, following the
    JSON grammar of ECMA-404 and the quoting rules of ECMA-262
    (QuoteJSONString).  A failed parse is a [SyntaxError]. *)

Module JSON.

Definition quote_char : ascii := "034"%char.
Definition backslash : ascii := "092"%char.

Definition hex_digit (n : nat) : ascii :=
  if (n <? 10)%nat then ascii_of_nat (48 + n) else ascii_of_nat (87 + n).

Definition hex_value (c : ascii) : option nat :=
  let n := nat_of_ascii c in
  if (48 <=? n)%nat && (n <=? 57)%nat then Some (n - 48)%nat
  else if (97 <=? n)%nat && (n <=? 102)%nat then Some (n - 87)%nat
  else if (65 <=? n)%nat && (n <=? 70)%nat then Some (n - 55)%nat
  else None.

(** How one byte of a string is written between the quotes. *)
Definition escape_char (c : ascii) : string :=
  let n := nat_of_ascii c in
  if Ascii.eqb c quote_char then String backslash (String quote_char EmptyString)
  else if Ascii.eqb c backslash then String backslash (String backslash EmptyString)
  else if (n =? 8)%nat then String backslash "b"
  else if (n =? 9)%nat then String backslash "t"
  else if (n =? 10)%nat then String backslash "n"
  else if (n =? 12)%nat then String backslash "f"
  else if (n =? 13)%nat then String backslash "r"
  else if (n <? 32)%nat then
    String backslash
      (String "u" (String "0" (String "0"
         (String (hex_digit (n / 16)) (String (hex_digit (n mod 16)) EmptyString)))))
  else String c EmptyString.

Fixpoint escape (s : string) : string :=
  match s with
  | EmptyString => EmptyString
  | String c r => escape_char c ++ escape r
  end.

Definition quote (s : string) : string :=
  String quote_char (escape s ++ String quote_char EmptyString).

Fixpoint join (sep : string) (l : list string) : string :=
  match l with
  | [] => EmptyString
  | [x] => x
  | x :: l' => x ++ sep ++ join sep l'
  end.

Fixpoint stringify (v : json) : string :=
  match v with
  | JNull => "null"
  | JBool true => "true"
  | JBool false => "false"
  | JNumber l => l
  | JString s => quote s
  | JArray vs => "[" ++ join "," (List.map stringify vs) ++ "]"
  | JObject ms =>
      "{" ++ join "," (List.map (fun m => quote (fst m) ++ ":" ++ stringify (snd m)) ms) ++ "}"
  end.

Definition is_ws (c : ascii) : bool :=
  let n := nat_of_ascii c in
  (n =? 32)%nat || (n =? 9)%nat || (n =? 10)%nat || (n =? 13)%nat.

Fixpoint skip_ws (s : string) : string :=
  match s with
  | String c r => if is_ws c then skip_ws r else s
  | EmptyString => s
  end.

(** The bytes of a code point (UTF-8).  A surrogate half that has no
    partner, which has no UTF-8 form, is written like any other code
    point below 65536. *)
Definition utf8 (n : N) : string :=
  if (n <? 128)%N then String (ascii_of_N n) EmptyString
  else if (n <? 2048)%N then
    String (ascii_of_N (192 + n / 64)) (String (ascii_of_N (128 + n mod 64)) EmptyString)
  else if (n <? 65536)%N then
    String (ascii_of_N (224 + n / 4096))
      (String (ascii_of_N (128 + (n / 64) mod 64))
         (String (ascii_of_N (128 + n mod 64)) EmptyString))
  else
    String (ascii_of_N (240 + n / 262144))
      (String (ascii_of_N (128 + (n / 4096) mod 64))
         (String (ascii_of_N (128 + (n / 64) mod 64))
            (String (ascii_of_N (128 + n mod 64)) EmptyString))).

Definition is_high_surrogate (n : N) : bool := (55296 <=? n)%N && (n <=? 56319)%N.
Definition is_low_surrogate (n : N) : bool := (56320 <=? n)%N && (n <=? 57343)%N.

(** The code point of a surrogate pair. *)
Definition surrogate_pair (high low : N) : N :=
  (65536 + (high - 55296) * 1024 + (low - 56320))%N.

Definition hex4 (a b c d : ascii) : option N :=
  match hex_value a, hex_value b, hex_value c, hex_value d with
  | Some x, Some y, Some z, Some w =>
      Some (((N.of_nat x * 16 + N.of_nat y) * 16 + N.of_nat z) * 16 + N.of_nat w)%N
  | _, _, _, _ => None
  end.

Definition with_prefix (p : string) (r : option (string * string)) : option (string * string) :=
  match r with
  | Some (s, rest) => Some (p ++ s, rest)
  | None => None
  end.

(** The characters of a string literal after its opening quote: the
    decoded string and what follows the closing quote. *)
Fixpoint parse_chars (s : string) : option (string * string) :=
  match s with
  | EmptyString => None
  | String c r =>
      if Ascii.eqb c quote_char then Some (EmptyString, r)
      else if Ascii.eqb c backslash then
        match r with
        | String e r' =>
            if Ascii.eqb e quote_char then with_prefix (String quote_char EmptyString) (parse_chars r')
            else if Ascii.eqb e backslash then with_prefix (String backslash EmptyString) (parse_chars r')
            else if Ascii.eqb e "/" then with_prefix "/" (parse_chars r')
            else if Ascii.eqb e "b" then with_prefix (String (ascii_of_nat 8) EmptyString) (parse_chars r')
            else if Ascii.eqb e "f" then with_prefix (String (ascii_of_nat 12) EmptyString) (parse_chars r')
            else if Ascii.eqb e "n" then with_prefix (String (ascii_of_nat 10) EmptyString) (parse_chars r')
            else if Ascii.eqb e "r" then with_prefix (String (ascii_of_nat 13) EmptyString) (parse_chars r')
            else if Ascii.eqb e "t" then with_prefix (String (ascii_of_nat 9) EmptyString) (parse_chars r')
            else if Ascii.eqb e "u" then
              match r' with
              | String h1 (String h2 (String h3 (String h4 r''))) =>
                  match hex4 h1 h2 h3 h4 with
                  | Some n =>
                      if is_high_surrogate n then
                        match r'' with
                        | String b (String u (String l1 (String l2 (String l3 (String l4 r3))))) =>
                            match hex4 l1 l2 l3 l4 with
                            | Some m =>
                                if Ascii.eqb b backslash && Ascii.eqb u "u" && is_low_surrogate m
                                then with_prefix (utf8 (surrogate_pair n m)) (parse_chars r3)
                                else with_prefix (utf8 n) (parse_chars r'')
                            | None => with_prefix (utf8 n) (parse_chars r'')
                            end
                        | _ => with_prefix (utf8 n) (parse_chars r'')
                        end
                      else with_prefix (utf8 n) (parse_chars r'')
                  | None => None
                  end
              | _ => None
              end
            else None
        | EmptyString => None
        end
      else if (nat_of_ascii c <? 32)%nat then None
      else with_prefix (String c EmptyString) (parse_chars r)
  end.

Fixpoint take_digits (s : string) : string * string :=
  match s with
  | String c r =>
      if is_digit c then let '(d, rest) := take_digits r in (String c d, rest)
      else (EmptyString, s)
  | EmptyString => (EmptyString, s)
  end.

(** A number literal: an optional minus, an integer part without a
    leading zero, an optional fraction and an optional exponent. *)
Definition parse_number (s : string) : option (string * string) :=
  let '(sign, s1) :=
    match s with
    | String "-" r => ("-", r)
    | _ => (EmptyString, s)
    end in
  let '(int, s2) := take_digits s1 in
  match int with
  | EmptyString => None
  | String "0" (String _ _) => None
  | _ =>
      let frac :=
        match s2 with
        | String "." r =>
            let '(d, rest) := take_digits r in
            match d with
            | EmptyString => None
            | _ => Some (String "." d, rest)
            end
        | _ => Some (EmptyString, s2)
        end in
      match frac with
      | None => None
      | Some (fr, s3) =>
          let exp :=
            match s3 with
            | String e r =>
                if Ascii.eqb e "e" || Ascii.eqb e "E" then
                  let '(sg, r1) :=
                    match r with
                    | String "+" r0 => ("+", r0)
                    | String "-" r0 => ("-", r0)
                    | _ => (EmptyString, r)
                    end in
                  let '(d, rest) := take_digits r1 in
                  match d with
                  | EmptyString => None
                  | _ => Some (String e (sg ++ d), rest)
                  end
                else Some (EmptyString, s3)
            | EmptyString => Some (EmptyString, s3)
            end in
          match exp with
          | None => None
          | Some (ex, s4) => Some (sign ++ int ++ fr ++ ex, s4)
          end
      end
  end.

Definition expect (word : string) (v : json) (s : string) : option (json * string) :=
  if String.prefix word s
  then Some (v, String.substring (String.length word) (String.length s - String.length word) s)
  else None.

(** Recursive descent.  [fuel] bounds the number of nested and
    successive values; [parse] gives it the length of the text. *)
Fixpoint parse_value (fuel : nat) (s : string) : option (json * string) :=
  match fuel with
  | O => None
  | S fuel =>
      match skip_ws s with
      | EmptyString => None
      | String c r =>
          if Ascii.eqb c "{" then
            match skip_ws r with
            | String "}" r' => Some (JObject [], r')
            | _ =>
                match parse_members fuel r with
                | Some (ms, r') => Some (JObject ms, r')
                | None => None
                end
            end
          else if Ascii.eqb c "[" then
            match skip_ws r with
            | String "]" r' => Some (JArray [], r')
            | _ =>
                match parse_elements fuel r with
                | Some (vs, r') => Some (JArray vs, r')
                | None => None
                end
            end
          else if Ascii.eqb c quote_char then
            match parse_chars r with
            | Some (str, r') => Some (JString str, r')
            | None => None
            end
          else if Ascii.eqb c "t" then expect "true" (JBool true) (String c r)
          else if Ascii.eqb c "f" then expect "false" (JBool false) (String c r)
          else if Ascii.eqb c "n" then expect "null" JNull (String c r)
          else
            match parse_number (String c r) with
            | Some (l, r') => Some (JNumber l, r')
            | None => None
            end
      end
  end
with parse_elements (fuel : nat) (s : string) : option (list json * string) :=
  match fuel with
  | O => None
  | S fuel =>
      match parse_value fuel s with
      | None => None
      | Some (v, r) =>
          match skip_ws r with
          | String "," r' =>
              match parse_elements fuel r' with
              | Some (vs, r'') => Some (v :: vs, r'')
              | None => None
              end
          | String "]" r' => Some ([v], r')
          | _ => None
          end
      end
  end
with parse_members (fuel : nat) (s : string) : option (list (string * json) * string) :=
  match fuel with
  | O => None
  | S fuel =>
      match skip_ws s with
      | String c r =>
          if Ascii.eqb c quote_char then
            match parse_chars r with
            | None => None
            | Some (k, r1) =>
                match skip_ws r1 with
                | String ":" r2 =>
                    match parse_value fuel r2 with
                    | None => None
                    | Some (v, r3) =>
                        match skip_ws r3 with
                        | String "," r4 =>
                            match parse_members fuel r4 with
                            | Some (ms, r5) => Some ((k, v) :: ms, r5)
                            | None => None
                            end
                        | String "}" r4 => Some ([(k, v)], r4)
                        | _ => None
                        end
                    end
                | _ => None
                end
            end
          else None
      | EmptyString => None
      end
  end.

(** [JSON.parse(text)] *)
Definition parse (text : string) : result json :=
  match parse_value (S (String.length text)) text with
  | Some (v, rest) =>
      match skip_ws rest with
      | EmptyString => ret v
      | String _ _ => throw (SyntaxError "Unexpected token in JSON")
      end
  | None => throw (SyntaxError "Unexpected token in JSON")
  end.

End JSON.

(** ** The S3 client ([aws-sdk/clients/s3])

    The service behind the client is a [Provider]: the outcome with which
    the promise of [getObject] settles for a given configuration and
    request.  Nothing is assumed about it. *)

Module S3.

Record Credentials : Type :=
  { accessKeyId : option string; secretAccessKey : option string }.

Record ClientConfiguration : Type := { credentials : Credentials }.

Record GetObjectRequest : Type := { Bucket : option string; Key : string }.

Record GetObjectOutput : Type := { Body : option string }.

Definition Provider : Type :=
  ClientConfiguration -> GetObjectRequest -> result GetObjectOutput.

Record Client : Type := { config : ClientConfiguration }.

(** [new S3(options)] stores its options; it validates nothing. *)
Definition new (options : ClientConfiguration) : result Client :=
  ret {| config := options |}.

(** [client.getObject(params).promise()], awaited. *)
Definition getObject (provider : Provider) (client : Client)
    (params : GetObjectRequest) : result GetObjectOutput :=
  provider (config client) params.

End S3.

(** [process.env] *)
Abbreviation Env := (gmap string string).

(** ** Server side: module initialisation and [getStaticProps] *)

(** Lines 15-20: the module-level client, built when the module loads. *)
Definition s3 (env : Env) : result S3.Client :=
  S3.new
    {| S3.credentials :=
         {| S3.accessKeyId := env !! "AWS_S3_ACCESS_KEY_ID";
            S3.secretAccessKey := env !! "AWS_S3_SECRET_ACCESS_KEY" |} |}.

Record PreviewData : Type := { pd_snapshotId : string }.

(** The argument of [getStaticProps]; [previewData] is undefined outside
    Preview Mode. *)
Record Context : Type := { preview : bool; previewData : option PreviewData }.

(** The three shapes of props the function returns, as one object whose
    absent properties are [None] (undefined). *)
Record Props : Type :=
  { isPreview : bool;
    snapshotId : option string;
    contents : option json;
    hasError : option bool;
    message : option string }.

Record StaticProps : Type := { props : Props }.

Definition with_message (m : option string) (p : Props) : Props :=
  {| isPreview := isPreview p;
     snapshotId := snapshotId p;
     contents := contents p;
     hasError := hasError p;
     message := m |}.

(** Line 62: the props of a request outside Preview Mode. *)
Definition normal_props : Props :=
  {| isPreview := false; snapshotId := None; contents := None;
     hasError := None; message := None |}.

(** Lines 49-58: the props of the error path. *)
Definition error_props (m : string) : Props :=
  {| isPreview := false; snapshotId := None; contents := None;
     hasError := Some true; message := Some m |}.

Definition message_not_found : string :=
  "The requested preview edit does not exist!".

Definition message_unknown : string :=
  "An unknown error has occurred. Please refresh the page or exit Preview Mode.".

(** [object.Body.toString()] *)
Definition Body_toString (object : S3.GetObjectOutput) : result string :=
  match S3.Body object with
  | Some bytes => ret bytes
  | None => throw (TypeError "Cannot read property 'toString' of undefined")
  end.

(** Lines 37-40: the parameters of the read. *)
Definition snapshot_request (env : Env) (snapshotId : string) : S3.GetObjectRequest :=
  {| S3.Bucket := env !! "AWS_S3_BUCKET"; S3.Key := snapshotId ++ ".json" |}.

(** Lines 36-46: the body of the [try] block. *)
Definition fetch_snapshot (provider : S3.Provider) (client : S3.Client)
    (env : Env) (snapshotId : string) : result StaticProps :=
  object <- S3.getObject provider client (snapshot_request env snapshotId) ;;
  text <- Body_toString object ;;
  contents <- JSON.parse text ;;
  ret {| props :=
           {| isPreview := true;
              snapshotId := Some snapshotId;
              contents := Some contents;
              hasError := None;
              message := None |} |}.

(** The ways the [try] block fails: the store read is rejected, the
    object has no body, or the body is not JSON. *)
Inductive fetch_fails (provider : S3.Provider) (client : S3.Client)
    (env : Env) (snapshotId : string) : exn -> Prop :=
| read_rejected (e : exn) :
    S3.getObject provider client (snapshot_request env snapshotId) = inl e ->
    fetch_fails provider client env snapshotId e
| body_missing (object : S3.GetObjectOutput) (e : exn) :
    S3.getObject provider client (snapshot_request env snapshotId) = inr object ->
    Body_toString object = inl e ->
    fetch_fails provider client env snapshotId e
| body_malformed (object : S3.GetObjectOutput) (text : string) (e : exn) :
    S3.getObject provider client (snapshot_request env snapshotId) = inr object ->
    Body_toString object = inr text ->
    JSON.parse text = inl e ->
    fetch_fails provider client env snapshotId e.

(** Lines 47-59: the [catch] clause. *)
Definition on_fetch_error (e : exn) : StaticProps :=
  {| props :=
       error_props
         (if decide (statusCode e = Some 403%Z)
          then message_not_found
          else message_unknown) |}.

(** Lines 22-63. *)
Definition getStaticProps (provider : S3.Provider) (client : S3.Client)
    (env : Env) (ctx : Context) : result StaticProps :=
  if preview ctx then
    match previewData ctx with
    | None => throw (TypeError "Cannot destructure property 'snapshotId' of undefined")
    | Some data =>
        let snapshotId := pd_snapshotId data in
        ret (try_catch (fetch_snapshot provider client env snapshotId) on_fetch_error)
    end
  else ret {| props := normal_props |}.

(** A request in Preview Mode, as [api/share/[snapshotId]] sets it up. *)
Definition preview_of (snapshotId : string) : Context :=
  {| preview := true; previewData := Some {| pd_snapshotId := snapshotId |} |}.

Definition normal_request : Context :=
  {| preview := false; previewData := None |}.

(** ** The document, as the client sees it *)

Module Dom.

(** A node of the document.  [innerText] is the text the browser
    currently renders for the element; it results from layout and is
    taken as given. *)
#[warnings="-register-all"]
Inductive node : Type :=
| Text (data : string)
| Element (tagName : string) (attributes : list (string * string))
    (innerText : string) (childNodes : list node).

Fixpoint getAttribute (name : string) (attrs : list (string * string)) : option string :=
  match attrs with
  | [] => None
  | (n, v) :: attrs' => if String.eqb n name then Some v else getAttribute name attrs'
  end.

Definition attributes_of (n : node) : option (list (string * string)) :=
  match n with
  | Text _ => None
  | Element _ attrs _ _ => Some attrs
  end.

(** [el.id]: the value of the id attribute, the empty string without one. *)
Definition id_of (n : node) : option string :=
  match n with
  | Text _ => None
  | Element _ attrs _ _ => Some (default EmptyString (getAttribute "id" attrs))
  end.

Definition innerText_of (n : node) : option string :=
  match n with
  | Text _ => None
  | Element _ _ txt _ => Some txt
  end.

Definition children_of (n : node) : list node :=
  match n with
  | Text _ => []
  | Element _ _ _ kids => kids
  end.

(** Attribute selectors: [[name]] and [[name=value]]. *)
Inductive simple_selector : Type :=
| HasAttr (name : string)
| AttrEq (name value : string).

(** [parent > child] *)
Record child_selector : Type :=
  { sel_parent : simple_selector; sel_child : simple_selector }.

Definition matches_simple (s : simple_selector) (n : node) : bool :=
  match attributes_of n with
  | None => false
  | Some attrs =>
      match s with
      | HasAttr name => bool_decide (is_Some (getAttribute name attrs))
      | AttrEq name value => bool_decide (getAttribute name attrs = Some value)
      end
  end.

Definition matches (s : child_selector) (parent : option node) (n : node) : bool :=
  match parent with
  | None => false
  | Some p => matches_simple (sel_parent s) p && matches_simple (sel_child s) n
  end.

(** An entry of a NodeList, with what the callback reads from it. *)
Record entry : Type := { parentNode : option node; element : node }.

(** The elements under [n] (itself included) that match, in tree order:
    an element before its descendants, siblings left to right. *)
Fixpoint select (s : child_selector) (parent : option node) (n : node) : list entry :=
  ((if matches s parent n then [{| parentNode := parent; element := n |}] else []) ++
   match n with
   | Text _ => []
   | Element _ _ _ kids => flat_map (select s (Some n)) kids
   end)%list.

(** [document.querySelectorAll(s)]; the root element's parent is the
    document itself, which is no element. *)
Definition querySelectorAll (s : child_selector) (root : node) : list entry :=
  select s None root.

(** The node reached from [n] by following child indices. *)
Fixpoint node_at (n : node) (path : list nat) : option node :=
  match path with
  | [] => Some n
  | i :: path' =>
      match children_of n !! i with
      | Some k => node_at k path'
      | None => None
      end
  end.

(** Document order on positions: an ancestor comes before its
    descendants, and the subtree of a child before those of its later
    siblings. *)
Inductive path_lt : list nat -> list nat -> Prop :=
| path_lt_ancestor (i : nat) (q : list nat) : path_lt [] (i :: q)
| path_lt_sibling (i j : nat) (p q : list nat) : (i < j)%nat -> path_lt (i :: p) (j :: q)
| path_lt_child (i : nat) (p q : list nat) : path_lt p q -> path_lt (i :: p) (i :: q).

(** The position [path] holds an element selected by [s]: it has a
    parent element, the parent matches the left of [>] and the element
    its right. *)
Definition selected_at (s : child_selector) (root : node) (path : list nat) : Prop :=
  exists container el,
    path <> [] /\
    node_at root (removelast path) = Some container /\
    node_at root path = Some el /\
    matches_simple (sel_parent s) container = true /\
    matches_simple (sel_child s) el = true.

(** The entry of the element at [path] under [n], whose parent is [parent]. *)
Fixpoint entry_at (parent : option node) (n : node) (path : list nat) : option entry :=
  match path with
  | [] => Some {| parentNode := parent; element := n |}
  | i :: path' =>
      match children_of n !! i with
      | Some k => entry_at (Some n) k path'
      | None => None
      end
  end.

(** The positions of the children's selected elements, the first child
    of [l] being child number [i]. *)
Definition paths_from (f : node -> list (list nat)) : list node -> nat -> list (list nat) :=
  fix all (l : list node) (i : nat) : list (list nat) :=
    match l with
    | [] => []
    | k :: l' => (List.map (cons i) (f k) ++ all l' (S i))%list
    end.

(** The positions of the elements [select] returns, in its order. *)
Fixpoint select_paths (s : child_selector) (parent : option node) (n : node) : list (list nat) :=
  ((if matches s parent n then [[]] else []) ++
   match n with
   | Text _ => []
   | Element _ _ _ kids => paths_from (select_paths s (Some n)) kids 0
   end)%list.

(** How many elements of the tree satisfy [f]. *)
Fixpoint count (f : node -> bool) (n : node) : nat :=
  ((if f n then 1 else 0) +
   match n with
   | Text _ => 0
   | Element _ _ _ kids => list_sum (List.map (count f) kids)
   end)%nat.

End Dom.

(** ** Client side: the [Home] component *)

(** [FieldEdit] of [components/malleable]. *)
Record FieldEdit : Type := { id : string; innerText : string }.

Definition FieldEdit_json (e : FieldEdit) : json :=
  JObject [("id", JString (id e)); ("innerText", JString (innerText e))].

Definition FieldEdits_json (es : list FieldEdit) : json :=
  JArray (List.map FieldEdit_json es).

(** The selector of line 89. *)
Definition editable_selector : Dom.child_selector :=
  {| Dom.sel_parent := Dom.HasAttr "id";
     Dom.sel_child := Dom.AttrEq "contenteditable" "true" |}.

(** The callback of line 92: [({ parentNode: { id }, innerText }) => ...]. *)
Definition to_FieldEdit (el : Dom.entry) : result FieldEdit :=
  match Dom.parentNode el with
  | None => throw (TypeError "Cannot destructure property 'id' of null")
  | Some parent =>
      ret {| id := default EmptyString (Dom.id_of parent);
             innerText := default EmptyString (Dom.innerText_of (Dom.element el)) |}
  end.

(** [array.map(f)] for a callback that may throw. *)
Fixpoint map_result {A B} (f : A -> result B) (l : list A) : result (list B) :=
  match l with
  | [] => ret []
  | a :: l' => b <- f a ;; bs <- map_result f l' ;; ret (b :: bs)
  end.

(** Lines 89-92: Edit Capture. *)
Definition persistContents (document : Dom.node) : result (list FieldEdit) :=
  let els := Dom.querySelectorAll editable_selector document in
  map_result to_FieldEdit els.

(** The edit Edit Capture owes for the region at [path]: the identifier
    of its container and its current text. *)
Definition edit_at (root : Dom.node) (path : list nat) : FieldEdit :=
  {| id := default EmptyString (Dom.node_at root (removelast path) ≫= Dom.id_of);
     innerText := default EmptyString (Dom.node_at root path ≫= Dom.innerText_of) |}.

(** An element marked interactively editable. *)
Definition is_editable (n : Dom.node) : bool :=
  Dom.matches_simple (Dom.AttrEq "contenteditable" "true") n.

(** *** State of the component and of its surroundings *)

(** The events the component's callbacks are wired to. *)
Inductive callback : Type :=
| clearSnapshot
| toggleEdit
| share.

(** What [Home] returns: React elements.  The imported components stay
    uninterpreted, each with the props [Home] passes to it. *)
#[warnings="-register-all"]
Inductive vnode : Type :=
| VText (s : string)
| VElement (tag : string) (attrs : list (string * string)) (children : list vnode)
| Head (children : list vnode)
| ShareLinkDialog (snapshotId : json) (onExit : callback)
| Malleable (id : string) (as_ : option string) (className : option string)
    (isActive : bool) (edits : option json) (children : list vnode)
| Snapshot (onCancel onShare : callback) (isSharing : bool)
| Edit (onClick : callback).

(** The hooks of [Home] (lines 69-84). *)
Record Hooks : Type :=
  { currentSnapshotId : option json;
    isEdit : bool;
    hasSaveRequest : bool;
    isSharingView : bool }.

Definition initial_hooks : Hooks :=
  {| currentSnapshotId := None;
     isEdit := false;
     hasSaveRequest := false;
     isSharingView := false |}.

Record Request : Type :=
  { url : string;
    method : string;
    body : string;
    headers : list (string * string) }.

Record Response : Type := { status : Z; text : string }.

Definition ok (res : Response) : bool :=
  (200 <=? status res)%Z && (status res <=? 299)%Z.

(** The page in a browser: the component's hooks, the document it is
    mounted in, every request [fetch] has sent (oldest first) and those
    of them whose promise has not settled yet. *)
Record Browser : Type :=
  { hooks : Hooks;
    document : Dom.node;
    sent : list Request;
    outstanding : list Request }.

Definition with_hooks (f : Hooks -> Hooks) (b : Browser) : Browser :=
  {| hooks := f (hooks b);
     document := document b;
     sent := sent b;
     outstanding := outstanding b |}.

Definition setSnapshotId (v : option json) : Browser -> Browser :=
  with_hooks (fun h =>
    {| currentSnapshotId := v;
       isEdit := isEdit h;
       hasSaveRequest := hasSaveRequest h;
       isSharingView := isSharingView h |}).

Definition setEdit (v : bool) : Browser -> Browser :=
  with_hooks (fun h =>
    {| currentSnapshotId := currentSnapshotId h;
       isEdit := v;
       hasSaveRequest := hasSaveRequest h;
       isSharingView := isSharingView h |}).

(** Lines 78-84. *)
Definition setSharing (sharing : bool) : Browser -> Browser :=
  with_hooks (fun h =>
    {| currentSnapshotId := currentSnapshotId h;
       isEdit := isEdit h;
       hasSaveRequest := sharing;
       isSharingView := sharing |}).

(** [self.fetch(url, init)]: the request leaves, its promise is pending. *)
Definition fetch (req : Request) (b : Browser) : Browser :=
  {| hooks := hooks b;
     document := document b;
     sent := (sent b ++ [req])%list;
     outstanding := (outstanding b ++ [req])%list |}.

Definition save_request (edits : list FieldEdit) : Request :=
  {| url := "/api/save";
     method := "POST";
     body := JSON.stringify (FieldEdits_json edits);
     headers := [("content-type", "application/json")] |}.

(** Lines 85-99: the synchronous part of [share].  An exception of the
    capture would leave the callback after [setSharing(true)]. *)
Definition share_click (b : Browser) : Browser :=
  if hasSaveRequest (hooks b) then b
  else
    let b1 := setSharing true b in
    match persistContents (document b1) with
    | inl _ => b1
    | inr edits => fetch (save_request edits) b1
    end.

(** Lines 100-106: the two [then] callbacks, on what [fetch] settled with. *)
Definition share_chain (settled : result Response) : result (option json) :=
  res <- settled ;;
  parsed <- JSON.parse (text res) ;;
  get_property parsed "snapshotId".

(** Lines 100-109: the promise chain once the request has settled. *)
Definition share_settled (settled : result Response) (b : Browser) : Browser :=
  finally
    (match share_chain settled with
     | inr snapshotId => setSnapshotId snapshotId b
     | inl _ => b
     end)
    (setSharing false).

Inductive event : Type :=
| Click (c : callback)
| Settle (settled : result Response)
| Input (document' : Dom.node).

(** One turn of the event loop. *)
Definition step (b : Browser) (ev : event) : Browser :=
  match ev with
  | Click clearSnapshot => setSnapshotId None b
  | Click toggleEdit => setEdit (negb (isEdit (hooks b))) b
  | Click share => share_click b
  | Settle settled =>
      match outstanding b with
      | [] => b
      | _ :: rest =>
          share_settled settled
            {| hooks := hooks b;
               document := document b;
               sent := sent b;
               outstanding := rest |}
      end
  | Input document' =>
      {| hooks := hooks b;
         document := document';
         sent := sent b;
         outstanding := outstanding b |}
  end.

Definition run (b : Browser) (evs : list event) : Browser :=
  fold_left step evs b.

Definition initial_browser (document : Dom.node) : Browser :=
  {| hooks := initial_hooks;
     document := document;
     sent := [];
     outstanding := [] |}.

(** *** What [Home] renders (lines 112-279) *)

(** The class name exported by [layout.module.css]. *)
Definition layoutStyles_layout : string := "layout".

Definition link (href : string) (children : list vnode) : vnode :=
  VElement "a" [("target", "_blank"); ("rel", "noopener"); ("href", href)] children.

(** [value && element] as a child: a falsy value renders nothing, except
    the number zero. *)
Definition and_render (value : option json) (element : json -> vnode) : list vnode :=
  match value with
  | None => []
  | Some v =>
      if truthy (Some v) then [element v]
      else match v with
           | JNumber _ => [VText "0"]
           | _ => []
           end
  end.

(** Line 112. *)
Definition Home_edits (props : Props) : option json :=
  if isPreview props then contents props else Some (JArray []).

Definition Home (props : Props) (h : Hooks) : list vnode :=
  let edits := Home_edits props in
  let isEdit := isEdit h in
  [ Head [VElement "title" [] [VText "Next.js | Preview Mode"]] ] ++
  and_render (currentSnapshotId h) (fun v => ShareLinkDialog v clearSnapshot) ++
  [ VElement "div" [("className", layoutStyles_layout)]
      ((if isPreview props || default false (hasError props)
        then [VElement "aside" [("role", "alert")]
                [VElement "a" [("href", "/api/exit")] [VText "Preview Mode"]]]
        else []) ++
       [ Malleable "title" (Some "h1") None isEdit edits [VText "My Static Site"];
         VElement "div" [("className", "features")]
           [ VElement "div" [("className", "feature")]
               [ Malleable "feature-1-emoji" (Some "div") None isEdit edits [VText "⚡"];
                 Malleable "feature-1-text" (Some "h4") None isEdit edits [VText "Blazing fast"] ];
             VElement "div" [("className", "feature")]
               [ Malleable "feature-2-emoji" (Some "div") None isEdit edits [VText "📡"];
                 Malleable "feature-2-text" (Some "h4") None isEdit edits [VText "Always available"] ];
             VElement "div" [("className", "feature")]
               [ Malleable "feature-3-emoji" (Some "div") None isEdit edits [VText "🏎"];
                 Malleable "feature-3-text" (Some "h4") None isEdit edits [VText "Lighthouse 100"] ] ];
         Malleable "title-2" (Some "h2") None isEdit edits
           [ VText "This demonstrates a static website generated using";
             VText " ";
             link "https://nextjs.org" [VText "Next.js'"];
             VText " ";
             VText "new";
             VText " ";
             link "https://github.com/zeit/next.js/issues/9524"
               [VText "Static Site Generation (SSG)"];
             VText "." ];
         VElement "div" [("className", "explanation")]
           [ VElement "div" [("className", "p")]
               [ Malleable "explanation-1-inspect" (Some "span") None isEdit edits
                   [ VText "To inspect the response from";
                     VText " ";
                     link "https://zeit.co/smart-cdn" [VText "our edge network"];
                     VText ", run:" ];
                 VElement "br" [] [];
                 Malleable "explanation-1-pre-curl" (Some "pre") None isEdit edits
                   [ VText "curl -sI https://preview.ssg.how | grep x-now" ];
                 Malleable "explanation-1-pre-response" (Some "pre") (Some "light") isEdit edits
                   [ VText "x-now-cache: HIT";
                     VElement "br" [] [];
                     VText "x-now-trace: sfo1";
                     VElement "br" [] [];
                     VText "x-now-id: sfo1:7c7lc-1583269874370-6a496f5a4e91" ] ];
             Malleable "explanation-2" None None isEdit edits
               [ VText "When people visit this site, the response always comes instantly from their";
                 VText " ";
                 link "https://zeit.co/smart-cdn" [VText "nearest location"];
                 VText "." ];
             Malleable "explanation-3" None None isEdit edits
               [ VText "Unlike traditional static solutions, however, you can generate previews of edits that you can share with anyone you choose." ];
             Malleable "explanation-4" None None isEdit edits
               [ VText "This makes Next.js the most optimal framework to integrate into your Headless CMS workflow." ] ] ]) ] ++
  [ if isEdit
    then Snapshot toggleEdit share (isSharingView h)
    else Edit toggleEdit ].

(** The [Malleable] elements of a tree, in order: identifier, the edits
    passed down and the default content (the children). *)
Fixpoint regions (v : vnode) : list (string * option json * list vnode) :=
  match v with
  | Malleable id _ _ _ edits children => [(id, edits, children)]
  | VElement _ _ children | Head children =>
      (fix regions_all (l : list vnode) : list (string * option json * list vnode) :=
         match l with
         | [] => []
         | c :: l' => (regions c ++ regions_all l')%list
         end) children
  | VText _ | ShareLinkDialog _ _ | Snapshot _ _ _ | Edit _ => []
  end.

Definition page_regions (page : list vnode) : list (string * option json * list vnode) :=
  flat_map regions page.

(** The regions of the page with their default content, as lines
    131-264 write them: identifier and children of each [Malleable]. *)
Definition default_regions : list (string * list vnode) :=
  [ ("title", [VText "My Static Site"]);
    ("feature-1-emoji", [VText "⚡"]);
    ("feature-1-text", [VText "Blazing fast"]);
    ("feature-2-emoji", [VText "📡"]);
    ("feature-2-text", [VText "Always available"]);
    ("feature-3-emoji", [VText "🏎"]);
    ("feature-3-text", [VText "Lighthouse 100"]);
    ("title-2",
     [ VText "This demonstrates a static website generated using";
       VText " ";
       VElement "a" [("target", "_blank"); ("rel", "noopener"); ("href", "https://nextjs.org")]
         [VText "Next.js'"];
       VText " ";
       VText "new";
       VText " ";
       VElement "a" [("target", "_blank"); ("rel", "noopener");
                     ("href", "https://github.com/zeit/next.js/issues/9524")]
         [VText "Static Site Generation (SSG)"];
       VText "." ]);
    ("explanation-1-inspect",
     [ VText "To inspect the response from";
       VText " ";
       VElement "a" [("target", "_blank"); ("rel", "noopener");
                     ("href", "https://zeit.co/smart-cdn")]
         [VText "our edge network"];
       VText ", run:" ]);
    ("explanation-1-pre-curl", [VText "curl -sI https://preview.ssg.how | grep x-now"]);
    ("explanation-1-pre-response",
     [ VText "x-now-cache: HIT";
       VElement "br" [] [];
       VText "x-now-trace: sfo1";
       VElement "br" [] [];
       VText "x-now-id: sfo1:7c7lc-1583269874370-6a496f5a4e91" ]);
    ("explanation-2",
     [ VText "When people visit this site, the response always comes instantly from their";
       VText " ";
       VElement "a" [("target", "_blank"); ("rel", "noopener");
                     ("href", "https://zeit.co/smart-cdn")]
         [VText "nearest location"];
       VText "." ]);
    ("explanation-3",
     [ VText "Unlike traditional static solutions, however, you can generate previews of edits that you can share with anyone you choose." ]);
    ("explanation-4",
     [ VText "This makes Next.js the most optimal framework to integrate into your Headless CMS workflow." ]) ].

(** The text submitted for the region [i] in a batch of edits, if any. *)
Definition submitted (edits : list FieldEdit) (i : string) : option string :=
  option_map innerText (List.find (fun e => String.eqb (id e) i) edits).

(** Every string an element tree carries: its text nodes (the default
    content of the regions included), its attribute values and the
    identifier handed to the dialog. *)
Fixpoint strings_of (v : vnode) : list string :=
  match v with
  | VText s => [s]
  | VElement _ attrs children =>
      (List.map snd attrs ++
       (fix strings_all (l : list vnode) : list string :=
          match l with
          | [] => []
          | c :: l' => (strings_of c ++ strings_all l')%list
          end) children)%list
  | Head children | Malleable _ _ _ _ _ children =>
      (fix strings_all (l : list vnode) : list string :=
         match l with
         | [] => []
         | c :: l' => (strings_of c ++ strings_all l')%list
         end) children
  | ShareLinkDialog snapshotId _ => [JSON.stringify snapshotId]
  | Snapshot _ _ _ | Edit _ => []
  end.

(** ** The parts of the application outside [pages/index.tsx] *)

Module Spec.

(** Modelled from the spec: the Blob Store Client (section 4.1), whose
    code is the S3 bucket behind [api/save] and the page.  [put] stores
    a value under a key, overwriting; [get] fails with [NotFound] for an
    absent key and with [StoreUnavailable] when the store cannot be
    reached. *)
Record BlobStore : Type := { objects : gmap string string; reachable : bool }.

Inductive StoreError : Type :=
| NotFound
| StoreUnavailable.

Definition put (key value : string) (st : BlobStore) : StoreError + BlobStore :=
  if reachable st
  then inr {| objects := <[key := value]> (objects st); reachable := true |}
  else inl StoreUnavailable.

Definition get (key : string) (st : BlobStore) : StoreError + string :=
  if reachable st
  then match objects st !! key with
       | Some value => inr value
       | None => inl NotFound
       end
  else inl StoreUnavailable.

(** Modelled from the spec: the configuration surface (section 6): the
    credentials and the bucket name under which the store is reached. *)
Record Access : Type := { access_key : string; secret_key : string; bucket : string }.

(** The environment holds the three options of the store. *)
Definition configured (a : Access) (env : Env) : Prop :=
  env !! "AWS_S3_ACCESS_KEY_ID" = Some (access_key a)
  /\ env !! "AWS_S3_SECRET_ACCESS_KEY" = Some (secret_key a)
  /\ env !! "AWS_S3_BUCKET" = Some (bucket a).

(** Modelled from the spec: how the bucket answers the page's client
    (sections 4.1, 6 and 7, and the comment of lines 53-54).  A request
    that lacks a credential or the bucket name fails in the client,
    without a status; one made with other credentials or for another
    bucket is denied; an absent object is an authorization error,
    status 403. *)
Definition provider (a : Access) (st : BlobStore) : S3.Provider :=
  fun config params =>
    match S3.accessKeyId (S3.credentials config),
          S3.secretAccessKey (S3.credentials config),
          S3.Bucket params with
    | Some key, Some secret, Some name =>
        if String.eqb key (access_key a) && String.eqb secret (secret_key a)
           && String.eqb name (bucket a)
        then
          match get (S3.Key params) st with
          | inr value => ret {| S3.Body := Some value |}
          | inl NotFound => throw (AWSError (Some 403%Z) "AccessDenied" "Access Denied")
          | inl StoreUnavailable => throw (AWSError None "NetworkingError" "connect ETIMEDOUT")
          end
        else throw (AWSError (Some 403%Z) "AccessDenied" "Access Denied")
    | _, _, _ => throw (AWSError None "ConfigError" "Missing credentials or bucket")
    end.

Inductive PersistFailure : Type := persist_failure.

(** Modelled from the spec: the Snapshot Service (section 4.3), whose
    code is [api/save].  [fresh] is the identifier the service
    generates for this call. *)
Definition createSnapshot (fresh : string) (edits : list FieldEdit)
    (st : BlobStore) : PersistFailure + (string * BlobStore) :=
  match put (fresh ++ ".json") (JSON.stringify (FieldEdits_json edits)) st with
  | inr st' => inr (fresh, st')
  | inl _ => inl persist_failure
  end.

(** Modelled from the spec: an edit is for the region whose identifier
    is its [id] (section 3). *)
Definition edit_matches (id : string) (e : json) : bool :=
  match get_property e "id" with
  | inr (Some (JString i)) => String.eqb i id
  | _ => false
  end.

(** Modelled from the spec: the overlay of the [Malleable] component
    (section 4.5), whose code is [components/malleable]: the text of
    the edit whose identifier matches the region, the default content
    without one. *)
Definition overlay (id : string) (edits : option json) (children : list vnode) : list vnode :=
  match edits with
  | Some (JArray es) =>
      match List.find (edit_matches id) es with
      | Some e =>
          match get_property e "innerText" with
          | inr (Some (JString t)) => [VText t]
          | _ => children
          end
      | None => children
      end
  | _ => children
  end.

(** Modelled from the spec: what the regions of a page display, each
    under its identifier (section 4.5). *)
Definition shown_regions (page : list vnode) : list (string * list vnode) :=
  List.map (fun r => (r.1.1, overlay r.1.1 r.1.2 r.2)) (page_regions page).

End Spec.

(** ** Auxiliary notions and sample inputs *)

(** The provider's answer for an object the caller may not see. *)
Definition denied : exn := AWSError (Some 403%Z) "AccessDenied" "Access Denied".

(** The client built from an environment without credentials. *)
Definition no_credentials : S3.Client :=
  {| S3.config :=
       {| S3.credentials := {| S3.accessKeyId := None; S3.secretAccessKey := None |} |} |}.

(** A provider whose objects all hold text that is not JSON. *)
Definition malformed_body : S3.Provider :=
  fun _ _ => ret {| S3.Body := Some "{" |}.

Definition is_settle (ev : event) : bool :=
  match ev with
  | Settle _ => true
  | _ => false
  end.

(** The flag is set exactly while a request is outstanding, and there is
    never more than one. *)
Definition single_flight (b : Browser) : Prop :=
  List.length (outstanding b) = if hasSaveRequest (hooks b) then 1%nat else 0%nat.

(** A container with an identifier around one element that shows [text]. *)
Definition region (id text : string) (editable : bool) : Dom.node :=
  Dom.Element "div" [("id", id)] text
    [Dom.Element "span" [("contenteditable", if editable then "true" else "false")] text
       [Dom.Text text]].

(** Two editable regions, [b] before [a]. *)
Definition page_b_a : Dom.node :=
  Dom.Element "body" [] "B A" [region "b" "B" true; region "a" "A" true].

(** The same page outside edit mode. *)
Definition page_static : Dom.node :=
  Dom.Element "body" [] "B A" [region "b" "B" false; region "a" "A" false].

Definition empty_store : Spec.BlobStore :=
  {| Spec.objects := ∅; Spec.reachable := true |}.

(** A configured deployment: the access to the store, the environment
    that names it and the client the module builds from it. *)
Definition demo_access : Spec.Access :=
  {| Spec.access_key := "AKIDEXAMPLE"; Spec.secret_key := "secret"; Spec.bucket := "previews" |}.

Definition demo_env : Env :=
  <["AWS_S3_ACCESS_KEY_ID" := "AKIDEXAMPLE"]>
    (<["AWS_S3_SECRET_ACCESS_KEY" := "secret"]> (<["AWS_S3_BUCKET" := "previews"]> ∅)).

Definition demo_client : S3.Client :=
  {| S3.config :=
       {| S3.credentials :=
            {| S3.accessKeyId := Some "AKIDEXAMPLE"; S3.secretAccessKey := Some "secret" |} |} |}.

(** The batch of the end-to-end example and the store that holds it. *)
Definition hello : list FieldEdit := [{| id := "title"; innerText := "Hello" |}].

Definition hello_store : Spec.BlobStore :=
  {| Spec.objects := <["abc123.json" := JSON.stringify (FieldEdits_json hello)]> ∅;
     Spec.reachable := true |}.

(** The hooks of a page with no snapshot shared and no save under way. *)
Definition idle (isEdit : bool) : Hooks :=
  {| currentSnapshotId := None; isEdit := isEdit;
     hasSaveRequest := false; isSharingView := false |}.

(** A failed save whose body nevertheless names a snapshot. *)
Definition failed_save : Response :=
  {| status := 500; text := JSON.stringify (JObject [("snapshotId", JString "abc123")]) |}.

(** The snapshot identifiers of the share-link dialogs on a page. *)
Definition shown_dialogs (page : list vnode) : list json :=
  flat_map (fun v => match v with
                     | ShareLinkDialog snapshotId _ => [snapshotId]
                     | _ => []
                     end) page.

(** The [Snapshot] bar or the [Edit] button, whichever the page ends with. *)
Definition controls (page : list vnode) : list vnode :=
  flat_map (fun v => match v with
                     | Snapshot _ _ _ | Edit _ => [v]
                     | _ => []
                     end) page.

(** The plain elements of a tree that bear the tag [tag], in order. *)
Fixpoint elements (tag : string) (v : vnode) : list vnode :=
  match v with
  | VElement t _ children =>
      ((if String.eqb t tag then [v] else []) ++ flat_map (elements tag) children)%list
  | Head children | Malleable _ _ _ _ _ children => flat_map (elements tag) children
  | VText _ | ShareLinkDialog _ _ | Snapshot _ _ _ | Edit _ => []
  end.

(** The alert of lines 127-129. *)
Definition preview_alert : vnode :=
  VElement "aside" [("role", "alert")]
    [VElement "a" [("href", "/api/exit")] [VText "Preview Mode"]].

(** The [Malleable] elements of a tree with their [isActive] prop. *)
Fixpoint active_flags (v : vnode) : list (string * bool) :=
  match v with
  | Malleable id _ _ isActive _ _ => [(id, isActive)]
  | VElement _ _ children | Head children => flat_map active_flags children
  | VText _ | ShareLinkDialog _ _ | Snapshot _ _ _ | Edit _ => []
  end.

(** The identifiers of the fourteen regions of the page, in order. *)
Definition region_ids : list string :=
  [ "title";
    "feature-1-emoji"; "feature-1-text";
    "feature-2-emoji"; "feature-2-text";
    "feature-3-emoji"; "feature-3-text";
    "title-2";
    "explanation-1-inspect"; "explanation-1-pre-curl"; "explanation-1-pre-response";
    "explanation-2"; "explanation-3"; "explanation-4" ].

(** A provider that hands out the same body for every key. *)
Definition constant_body (text : string) : S3.Provider :=
  fun _ _ => ret {| S3.Body := Some text |}.

(** A provider whose objects have no body. *)
Definition no_body : S3.Provider :=
  fun _ _ => ret {| S3.Body := None |}.

(** A successful save that names the snapshot [abc123]. *)
Definition saved : Response :=
  {| status := 200; text := JSON.stringify (JObject [("snapshotId", JString "abc123")]) |}.

(** A page on which a save request is outstanding and a dialog is open. *)
Definition sharing_page : Browser :=
  {| hooks := {| currentSnapshotId := Some (JString "old"); isEdit := true;
                 hasSaveRequest := true; isSharingView := true |};
     document := page_b_a;
     sent := [save_request []];
     outstanding := [save_request []] |}.

(** A container whose two children are both editable. *)
Definition twin_container : Dom.node :=
  Dom.Element "div" [("id", "twin")] "L R"
    [ Dom.Element "span" [("contenteditable", "true")] "L" [];
      Dom.Text " ";
      Dom.Element "span" [("contenteditable", "true")] "R" [] ].

(** * Properties *)

(** ** [JSON.parse] after [JSON.stringify] *)

Module JSONFacts.
Import JSON.

Lemma append_cons (x : ascii) (a b : string) : String x a ++ b = String x (a ++ b).
Proof. reflexivity. Qed.

Lemma append_assoc (a b c : string) : (a ++ b) ++ c = a ++ (b ++ c).
Proof.
  induction a as [|x a IH]; [reflexivity|].
  rewrite !append_cons. now rewrite IH.
Qed.

Lemma length_append (a b : string) :
  String.length (a ++ b) = (String.length a + String.length b)%nat.
Proof.
  induction a as [|x a IH]; [reflexivity|].
  rewrite append_cons. cbn [String.length]. now rewrite IH.
Qed.

Lemma parse_chars_escape_char (c : ascii) (rest : string) :
  parse_chars (escape_char c ++ rest) = with_prefix (String c EmptyString) (parse_chars rest).
Proof.
  destruct c as [[] [] [] [] [] [] [] []]; reflexivity.
Qed.

Lemma parse_chars_escape (s rest : string) :
  parse_chars (escape s ++ String quote_char rest) = Some (s, rest).
Proof.
  induction s as [|c s IH]; [reflexivity|].
  cbn [escape]. rewrite append_assoc, parse_chars_escape_char, IH. reflexivity.
Qed.

Lemma quote_unfold (s rest : string) :
  quote s ++ rest = String quote_char (escape s ++ String quote_char rest).
Proof. unfold quote. rewrite append_cons. now rewrite append_assoc. Qed.

Lemma parse_value_quote (fuel : nat) (s rest : string) :
  parse_value (S fuel) (quote s ++ rest) = Some (JString s, rest).
Proof.
  rewrite quote_unfold. cbn [parse_value skip_ws].
  change (is_ws quote_char) with false. cbv iota.
  change (Ascii.eqb quote_char "{") with false.
  change (Ascii.eqb quote_char "[") with false.
  change (Ascii.eqb quote_char quote_char) with true. cbv iota.
  now rewrite parse_chars_escape.
Qed.

Lemma parse_members_last (fuel : nat) (k s rest : string) :
  parse_members (S (S fuel)) (quote k ++ String ":" (quote s ++ String "}" rest))
  = Some ([(k, JString s)], rest).
Proof.
  rewrite (quote_unfold k).
  cbn [parse_members skip_ws].
  change (is_ws quote_char) with false. cbv iota.
  change (Ascii.eqb quote_char quote_char) with true. cbv iota.
  rewrite parse_chars_escape.
  cbn [skip_ws]. change (is_ws ":") with false. cbv iota.
  rewrite parse_value_quote.
  reflexivity.
Qed.

Lemma parse_members_more (fuel : nat) (k s rest : string) :
  parse_members (S (S fuel)) (quote k ++ String ":" (quote s ++ String "," rest))
  = match parse_members (S fuel) rest with
    | Some (ms, r) => Some ((k, JString s) :: ms, r)
    | None => None
    end.
Proof.
  rewrite (quote_unfold k).
  cbn [parse_members skip_ws].
  change (is_ws quote_char) with false. cbv iota.
  change (Ascii.eqb quote_char quote_char) with true. cbv iota.
  rewrite parse_chars_escape.
  cbn [skip_ws]. change (is_ws ":") with false. cbv iota.
  rewrite parse_value_quote.
  reflexivity.
Qed.

Lemma stringify_FieldEdit (e : FieldEdit) (rest : string) :
  stringify (FieldEdit_json e) ++ rest
  = String "{" (quote "id" ++ String ":" (quote (id e) ++ String ","
      (quote "innerText" ++ String ":" (quote (innerText e) ++ String "}" rest)))).
Proof.
  unfold FieldEdit_json. cbn [stringify List.map join fst snd].
  rewrite !append_cons, !append_assoc, !append_cons. 
  rewrite !append_assoc. rewrite !append_cons. reflexivity.
Qed.

Lemma parse_value_FieldEdit (fuel : nat) (e : FieldEdit) (rest : string) :
  parse_value (4 + fuel) (stringify (FieldEdit_json e) ++ rest)
  = Some (FieldEdit_json e, rest).
Proof.
  rewrite stringify_FieldEdit.
  change (4 + fuel)%nat with (S (S (S (S fuel)))).
  cbn [parse_value skip_ws].
  change (is_ws "{") with false. cbv iota.
  change (Ascii.eqb "{" "{") with true. cbv iota.
  rewrite (quote_unfold "id") at 1. cbn [skip_ws]. 
  change (is_ws quote_char) with false. cbv iota.
  unfold quote_char at 1. cbv iota.
  rewrite parse_members_more, parse_members_last. reflexivity.
Qed.

Lemma join_cons2 (sep x y : string) (l : list string) :
  join sep (x :: y :: l) = x ++ sep ++ join sep (y :: l).
Proof. reflexivity. Qed.

Lemma parse_elements_FieldEdits (e : FieldEdit) (es : list FieldEdit) (fuel : nat) (rest : string) :
  parse_elements (List.length (e :: es) + 4 + fuel)
    (join "," (List.map stringify (List.map FieldEdit_json (e :: es))) ++ String "]" rest)
  = Some (List.map FieldEdit_json (e :: es), rest).
Proof.
  revert e fuel. induction es as [|e' es IH]; intros e fuel.
  - cbn [List.length List.map join Nat.add parse_elements].
    rewrite (parse_value_FieldEdit fuel). reflexivity.
  - cbn [List.map] in *. rewrite join_cons2, !append_assoc.
    change (List.length (e :: e' :: es) + 4 + fuel)%nat
      with (S (List.length (e' :: es) + 4 + fuel)).
    cbn [parse_elements].
    replace (List.length (e' :: es) + 4 + fuel)%nat
      with (4 + (List.length (e' :: es) + fuel))%nat at 1 by lia.
    rewrite parse_value_FieldEdit.
    rewrite append_cons. cbn [skip_ws]. change (is_ws ",") with false. cbv iota.
    change (EmptyString ++ ?x) with x.
    rewrite IH. reflexivity.
Qed.

Lemma append_nil_r (a : string) : a ++ EmptyString = a.
Proof.
  induction a as [|x a IH]; [reflexivity|].
  rewrite append_cons. now rewrite IH.
Qed.

Lemma length_stringify_FieldEdit (e : FieldEdit) :
  (3 <= String.length (stringify (FieldEdit_json e)))%nat.
Proof.
  rewrite <- (append_nil_r (stringify (FieldEdit_json e))).
  rewrite stringify_FieldEdit, !quote_unfold. cbn [String.length].
  rewrite !length_append. cbn [String.length]. lia.
Qed.

Lemma length_join_FieldEdits (es : list FieldEdit) :
  (3 * List.length es
   <= String.length (join "," (List.map stringify (List.map FieldEdit_json es))))%nat.
Proof.
  induction es as [|e es IH]; [cbn; lia|].
  pose proof (length_stringify_FieldEdit e) as He.
  destruct es as [|e' es].
  - cbn [List.map join List.length]. lia.
  - cbn [List.map] in *. rewrite join_cons2, !length_append.
    cbn [List.length] in *. lia.
Qed.

Lemma join_FieldEdits_head (e : FieldEdit) (es : list FieldEdit) (rest : string) :
  exists r,
    join "," (List.map stringify (List.map FieldEdit_json (e :: es))) ++ rest
    = String "{" r.
Proof.
  destruct es as [|e' es]; cbn [List.map].
  - cbn [join]. rewrite stringify_FieldEdit. eauto.
  - rewrite join_cons2, append_assoc, stringify_FieldEdit. eauto.
Qed.

Lemma parse_value_array (fuel : nat) (body r : string) :
  body = String "{" r ->
  parse_value (S fuel) (String "[" body)
  = match parse_elements fuel body with
    | Some (vs, r') => Some (JArray vs, r')
    | None => None
    end.
Proof. intros ->. reflexivity. Qed.

(** [JSON.parse] inverts [JSON.stringify] on arrays of field edits. *)
Lemma parse_stringify_FieldEdits (es : list FieldEdit) :
  parse (stringify (FieldEdits_json es)) = inr (FieldEdits_json es).
Proof.
  unfold parse, FieldEdits_json. cbn [stringify].
  destruct es as [|e es]; [reflexivity|].
  rewrite append_cons. change (EmptyString ++ ?x) with x.
  destruct (join_FieldEdits_head e es "]") as [r Hr].
  rewrite (parse_value_array _ _ r Hr).
  cbn [String.length]. rewrite length_append. cbn [String.length].
  pose proof (length_join_FieldEdits (e :: es)) as Hlen.
  set (J := join "," (List.map stringify (List.map FieldEdit_json (e :: es)))) in *.
  replace (S (String.length J + 1))%nat
    with (List.length (e :: es) + 4 + (String.length J - List.length (e :: es) - 2))%nat
    by (cbn [List.length] in *; lia).
  subst J. rewrite parse_elements_FieldEdits. reflexivity.
Qed.
End JSONFacts.

(** ** Server side *)

Section Server.

Variable provider : S3.Provider.
Variable client : S3.Client.
Variable env : Env.

Lemma fetch_fails_iff (snapshotId : string) (e : exn) :
  fetch_fails provider client env snapshotId e
  <-> fetch_snapshot provider client env snapshotId = inl e.
Proof.
  unfold fetch_snapshot. split.
  - intros [e' H | o e' H Hb | o t e' H Hb Hp]; rewrite H; cbn [bind]; try done.
    + by rewrite Hb.
    + rewrite Hb. cbn [bind]. by rewrite Hp.
  - destruct (S3.getObject _ _ _) as [e0|o] eqn:H; cbn [bind].
    { intros [= <-]. by apply read_rejected. }
    destruct (Body_toString o) as [e1|t] eqn:Hb; cbn [bind].
    { intros [= <-]. by eapply body_missing. }
    destruct (JSON.parse t) as [e2|v] eqn:Hp; cbn [bind]; [|done].
    intros [= <-]. by eapply body_malformed.
Qed.

Lemma getStaticProps_preview (snapshotId : string) :
  getStaticProps provider client env (preview_of snapshotId)
  = inr (try_catch (fetch_snapshot provider client env snapshotId) on_fetch_error).
Proof. reflexivity. Qed.

Lemma getStaticProps_failure (snapshotId : string) (e : exn) :
  fetch_snapshot provider client env snapshotId = inl e ->
  getStaticProps provider client env (preview_of snapshotId) = inr (on_fetch_error e).
Proof. intros H. by rewrite getStaticProps_preview, H. Qed.

End Server.

(** ** What [Home] passes down *)

Lemma regions_and_render (value : option json) (element : json -> vnode) :
  (forall v, regions (element v) = []) ->
  page_regions (and_render value element) = [].
Proof.
  intros He. unfold and_render, page_regions.
  destruct value as [v|]; [|done].
  destruct (truthy (Some v)); cbn [flat_map]; [by rewrite He|].
  by destruct v.
Qed.

Lemma page_regions_app (a b : list vnode) :
  page_regions (a ++ b) = (page_regions a ++ page_regions b)%list.
Proof. apply flat_map_app. Qed.

(** Every [Malleable] of the page receives the edits of line 112. *)
Lemma Home_regions_edits (props : Props) (h : Hooks) :
  Forall (fun r => r.1.2 = Home_edits props) (page_regions (Home props h)).
Proof.
  unfold Home. rewrite !page_regions_app.
  rewrite regions_and_render by done.
  destruct (isPreview props || default false (hasError props));
    destruct (isEdit h); cbn; repeat constructor.
Qed.

(** The regions of the page are the fourteen of lines 131-264, each with
    its default content as children and the edits of line 112. *)
Lemma page_regions_Home (props : Props) (h : Hooks) :
  page_regions (Home props h)
  = List.map (fun r => (r.1, Home_edits props, r.2)) default_regions.
Proof.
  unfold Home. rewrite !page_regions_app.
  rewrite regions_and_render by done.
  destruct (isPreview props || default false (hasError props));
    destruct (isEdit h); reflexivity.
Qed.

Lemma Home_ignores_message (props : Props) (h : Hooks) (m : option string) :
  Home (with_message m props) h = Home props h.
Proof. reflexivity. Qed.

(** ** The error path of [getStaticProps] *)

(** C3. When the store read of a preview request fails with error [e],
    [getStaticProps] answers with props that are no preview and flag an
    error, with one of two different fixed messages: the does-not-exist
    message exactly when the status code of [e] is 403, the generic
    message for every other failure.  Nothing else of [e] reaches the
    props. *)
Theorem preview_error_classification
    (provider : S3.Provider) (client : S3.Client) (env : Env)
    (sid : string) (e : exn) :
  S3.getObject provider client (snapshot_request env sid) = inl e ->
  exists sp,
    getStaticProps provider client env (preview_of sid) = inr sp
    /\ isPreview (props sp) = false
    /\ hasError (props sp) = Some true
    /\ snapshotId (props sp) = None
    /\ contents (props sp) = None
    /\ (statusCode e = Some 403%Z ->
        message (props sp) = Some "The requested preview edit does not exist!")
    /\ (statusCode e <> Some 403%Z ->
        message (props sp)
        = Some "An unknown error has occurred. Please refresh the page or exit Preview Mode.")
    /\ (message (props sp) = Some "The requested preview edit does not exist!"
        <-> statusCode e = Some 403%Z).
Proof.
  intros H. eexists. split.
  { apply getStaticProps_failure. unfold fetch_snapshot. by rewrite H. }
  unfold on_fetch_error, error_props. cbn [props isPreview hasError snapshotId contents message].
  do 4 (split; [reflexivity|]).
  split; [intros He; by rewrite decide_True|].
  split; [intros He; by rewrite decide_False|].
  case_decide; split; done.
Qed.

Lemma preview_error_classification_witness :
  S3.getObject (fun _ _ => throw denied) no_credentials (snapshot_request ∅ "abc123")
  = inl denied
  /\ exists sp,
       getStaticProps (fun _ _ => throw denied) no_credentials ∅ (preview_of "abc123")
       = inr sp
       /\ isPreview (props sp) = false
       /\ hasError (props sp) = Some true
       /\ snapshotId (props sp) = None
       /\ contents (props sp) = None
       /\ (statusCode denied = Some 403%Z ->
           message (props sp) = Some "The requested preview edit does not exist!")
       /\ (statusCode denied <> Some 403%Z ->
           message (props sp)
           = Some "An unknown error has occurred. Please refresh the page or exit Preview Mode.")
       /\ (message (props sp) = Some "The requested preview edit does not exist!"
           <-> statusCode denied = Some 403%Z).
Proof.
  split; [reflexivity|].
  apply (preview_error_classification (fun _ _ => throw denied) no_credentials ∅ "abc123" denied).
  reflexivity.
Defined.

Lemma fetch_snapshot_props (provider : S3.Provider) (client : S3.Client) (env : Env)
    (snapshotId : string) (sp : StaticProps) :
  fetch_snapshot provider client env snapshotId = inr sp ->
  isPreview (props sp) = true /\ hasError (props sp) = None.
Proof.
  unfold fetch_snapshot.
  destruct (S3.getObject _ _ _); cbn [bind]; [done|].
  destruct (Body_toString _); cbn [bind]; [done|].
  destruct (JSON.parse _); cbn [bind]; [done|].
  by intros [= <-].
Qed.

Lemma props_exclusive (provider : S3.Provider) (client : S3.Client) (env : Env)
    (ctx : Context) (sp : StaticProps) :
  getStaticProps provider client env ctx = inr sp ->
  ~ (isPreview (props sp) = true /\ hasError (props sp) = Some true).
Proof.
  unfold getStaticProps. destruct (preview ctx).
  - destruct (previewData ctx) as [data|]; [|done]. intros [= <-].
    destruct (fetch_snapshot provider client env (pd_snapshotId data)) as [e|sp'] eqn:Hf;
      cbn [try_catch].
    + by intros [? _].
    + destruct (fetch_snapshot_props _ _ _ _ _ Hf) as [_ Hh]. rewrite Hh. by intros [_ ?].
  - intros [= <-]. by intros [? _].
Qed.

(** C10. For a preview request, whatever is thrown while the snapshot is
    fetched or parsed (a rejected read, a missing body, malformed JSON)
    is caught: [getStaticProps] returns props, never an exception; the
    props of the error path have [isPreview] false and [hasError] true,
    and on that path [Home] renders its fourteen regions, each with its
    default content and the empty list of edits; and no props the
    function returns, for any request, have [isPreview] and [hasError]
    both true. *)
Theorem getStaticProps_catches
    (provider : S3.Provider) (client : S3.Client) (env : Env)
    (ctx : Context) (data : PreviewData) :
  preview ctx = true ->
  previewData ctx = Some data ->
  exists sp,
    getStaticProps provider client env ctx = inr sp
    /\ (forall e, fetch_fails provider client env (pd_snapshotId data) e ->
          isPreview (props sp) = false
          /\ hasError (props sp) = Some true
          /\ Home_edits (props sp) = Some (JArray [])
          /\ (forall h, Forall (fun r => r.1.2 = Some (JArray []))
                          (page_regions (Home (props sp) h)))
          /\ (forall h, page_regions (Home (props sp) h)
                        = List.map (fun r => (r.1, Some (JArray []), r.2)) default_regions))
    /\ (forall ctx' sp',
          getStaticProps provider client env ctx' = inr sp' ->
          ~ (isPreview (props sp') = true /\ hasError (props sp') = Some true)).
Proof.
  intros Hp Hd. unfold getStaticProps at 1. rewrite Hp, Hd.
  eexists. split; [reflexivity|]. split.
  - intros e He. apply fetch_fails_iff in He. rewrite He. cbn [try_catch].
    split_and!; try reflexivity.
    + intros h. apply (Home_regions_edits (props (on_fetch_error e)) h).
    + intros h. apply (page_regions_Home (props (on_fetch_error e)) h).
  - intros ctx' sp' H. by apply (props_exclusive provider client env ctx').
Qed.

Lemma getStaticProps_catches_witness :
  preview (preview_of "abc123") = true
  /\ previewData (preview_of "abc123") = Some {| pd_snapshotId := "abc123" |}
  /\ fetch_fails malformed_body no_credentials ∅ "abc123"
       (SyntaxError "Unexpected token in JSON")
  /\ exists sp,
       getStaticProps malformed_body no_credentials ∅ (preview_of "abc123") = inr sp
       /\ (forall e, fetch_fails malformed_body no_credentials ∅ "abc123" e ->
             isPreview (props sp) = false
             /\ hasError (props sp) = Some true
             /\ Home_edits (props sp) = Some (JArray [])
             /\ (forall h, Forall (fun r => r.1.2 = Some (JArray []))
                             (page_regions (Home (props sp) h)))
             /\ (forall h, page_regions (Home (props sp) h)
                           = List.map (fun r => (r.1, Some (JArray []), r.2)) default_regions))
       /\ (forall ctx' sp',
             getStaticProps malformed_body no_credentials ∅ ctx' = inr sp' ->
             ~ (isPreview (props sp') = true /\ hasError (props sp') = Some true)).
Proof.
  split; [reflexivity|]. split; [reflexivity|].
  split; [by eapply body_malformed|].
  apply (getStaticProps_catches malformed_body no_credentials ∅
           (preview_of "abc123") {| pd_snapshotId := "abc123" |});
    reflexivity.
Defined.

Example malformed_body_fails :
  fetch_fails malformed_body no_credentials ∅ "abc123"
    (SyntaxError "Unexpected token in JSON").
Proof. by eapply body_malformed. Qed.

(** ** The document *)

Module DomFacts.
Import Dom.

(** Induction on a tree with the hypothesis for every child. *)
Lemma node_induction (P : node -> Prop) :
  (forall data, P (Text data)) ->
  (forall tag attrs txt kids, Forall P kids -> P (Element tag attrs txt kids)) ->
  forall n, P n.
Proof.
  intros HT HE. fix IH 1. intros [data | tag attrs txt kids].
  - apply HT.
  - apply HE. induction kids as [|k kids IHk]; constructor; [apply IH | apply IHk].
Qed.

Lemma select_has_parent (s : child_selector) (n : node) :
  forall parent, Forall (fun e => is_Some (parentNode e)) (select s parent n).
Proof.
  induction n as [data | tag attrs txt kids IH] using node_induction; intros parent.
  - cbn [select]. rewrite app_nil_r.
    destruct parent as [p|]; cbn [matches]; [|constructor].
    destruct (_ && _); repeat constructor; eauto.
  - cbn [select]. apply Forall_app. split.
    + destruct parent as [p|]; cbn [matches]; [|constructor].
      destruct (_ && _); repeat constructor; eauto.
    + generalize (Some (Element tag attrs txt kids)). intros q.
      induction IH as [|k kids Hk _ IHkids]; cbn [flat_map]; [constructor|].
      apply Forall_app. split; [apply Hk | apply IHkids].
Qed.

Section Selection.

Variable s : child_selector.

Lemma elem_of_paths_from (f : node -> list (list nat)) (l : list node) (i : nat) (p : list nat) :
  p ∈ paths_from f l i
  <-> exists j k p', p = (i + j)%nat :: p' /\ l !! j = Some k /\ p' ∈ f k.
Proof.
  revert i. induction l as [|k l IH]; intros i; cbn [paths_from].
  - split; [by intros ?%elem_of_nil | by intros (j & k & p' & _ & ? & _)].
  - rewrite elem_of_app, IH. split.
    + intros [H | (j & k' & p' & -> & Hj & Hp)].
      * apply list_elem_of_In, in_map_iff in H as (p' & <- & Hp).
        exists 0%nat, k, p'. rewrite Nat.add_0_r. split_and!; [done..|].
        by apply list_elem_of_In.
      * exists (S j), k', p'. split_and!; [f_equal; lia | done | done].
    + intros (j & k' & p' & -> & Hj & Hp). destruct j as [|j].
      * left. injection Hj as ->. rewrite Nat.add_0_r.
        apply list_elem_of_In, in_map_iff. exists p'. split; [done|].
        by apply list_elem_of_In.
      * right. exists j, k', p'. split_and!; [f_equal; lia | done | done].
Qed.

Lemma sorted_paths_from (f : node -> list (list nat)) (l : list node) (i : nat) :
  Forall (fun k => StronglySorted path_lt (f k)) l ->
  StronglySorted path_lt (paths_from f l i).
Proof.
  intros H. revert i. induction H as [|k l Hk _ IH]; intros i; cbn [paths_from].
  - constructor.
  - apply StronglySorted_app_2; [| |apply IH].
    + intros p q Hp Hq.
      apply list_elem_of_In, in_map_iff in Hp as (p' & <- & _).
      apply elem_of_paths_from in Hq as (j & k' & q' & -> & _ & _).
      apply path_lt_sibling. lia.
    + change (List.map (cons i) (f k)) with (cons i <$> f k).
      eapply StronglySorted_fmap; [|exact Hk].
      intros p q. apply path_lt_child.
Qed.

Lemma select_paths_sorted (n : node) :
  forall parent, StronglySorted path_lt (select_paths s parent n).
Proof.
  induction n as [data | tag attrs txt kids IH] using node_induction; intros parent;
    cbn [select_paths].
  - rewrite app_nil_r. destruct (matches s parent _); repeat constructor.
  - apply StronglySorted_app_2.
    + intros p q Hp Hq.
      apply elem_of_paths_from in Hq as (j & k' & q' & -> & _ & _).
      destruct (matches s parent _); [|by apply elem_of_nil in Hp].
      apply list_elem_of_singleton in Hp as ->. constructor.
    + destruct (matches s parent _); repeat constructor.
    + apply sorted_paths_from. eapply Forall_impl; [exact IH|]. intros k Hk. apply Hk.
Qed.

(** The entries [select] returns are those at the positions of
    [select_paths], in the same order. *)
Lemma select_entries (n : node) :
  forall parent,
    List.map Some (select s parent n) = List.map (entry_at parent n) (select_paths s parent n).
Proof.
  induction n as [data | tag attrs txt kids IH] using node_induction; intros parent;
    cbn [select select_paths].
  - rewrite !app_nil_r. by destruct (matches s parent _).
  - rewrite !List.map_app. f_equal; [by destruct (matches s parent _)|].
    set (n := Element tag attrs txt kids).
    assert (forall pre l, kids = (pre ++ l)%list -> Forall (fun k => forall parent,
              List.map Some (select s parent k)
              = List.map (entry_at parent k) (select_paths s parent k)) l ->
            List.map Some (flat_map (select s (Some n)) l)
            = List.map (entry_at parent n)
                (paths_from (select_paths s (Some n)) l (List.length pre))) as Hkids.
    { intros pre l. revert pre. induction l as [|k l IHl]; intros pre Hpre Hl; [done|].
      cbn [flat_map paths_from]. rewrite !List.map_app.
      apply Forall_cons in Hl as [Hk Hl]. f_equal.
      - rewrite Hk, List.map_map. apply List.map_ext. intros p.
        cbn [entry_at]. subst n. cbn [children_of]. rewrite Hpre.
        by rewrite list_lookup_middle.
      - specialize (IHl (pre ++ [k])%list). rewrite length_app in IHl.
        cbn [List.length] in IHl. rewrite Nat.add_1_r in IHl.
        apply IHl; [|done]. by rewrite <- app_assoc. }
    apply (Hkids [] kids); done.
Qed.

Lemma elem_of_select_paths (n : node) :
  forall parent p,
    p ∈ select_paths s parent n
    <-> exists e, entry_at parent n p = Some e
                  /\ matches s (parentNode e) (element e) = true.
Proof.
  induction n as [data | tag attrs txt kids IH] using node_induction; intros parent p;
    cbn [select_paths].
  - rewrite app_nil_r. split.
    + destruct (matches s parent _) eqn:Hm; [|by intros ?%elem_of_nil].
      intros ->%list_elem_of_singleton. eauto.
    + intros (e & He & Hm). destruct p as [|i p]; [|done].
      injection He as <-. cbn in Hm. rewrite Hm. by apply list_elem_of_singleton.
  - rewrite elem_of_app, elem_of_paths_from. split.
    + intros [Hp | (j & k & p' & -> & Hj & Hp)].
      * destruct (matches s parent _) eqn:Hm; [|by apply elem_of_nil in Hp].
        apply list_elem_of_singleton in Hp as ->. eauto.
      * cbn [entry_at children_of Nat.add]. rewrite Hj.
        by apply (Forall_lookup_1 _ _ _ _ IH Hj).
    + intros (e & He & Hm). destruct p as [|j p'].
      * left. injection He as <-. cbn in Hm. rewrite Hm. by apply list_elem_of_singleton.
      * right. cbn [entry_at children_of] in He.
        destruct (kids !! j) as [k|] eqn:Hj; [|done].
        exists j, k, p'. split_and!; [done..|].
        apply (Forall_lookup_1 _ _ _ _ IH Hj). eauto.
Qed.

End Selection.

Lemma entry_at_node_at (p : list nat) :
  forall parent n e,
    entry_at parent n p = Some e ->
    node_at n p = Some (element e)
    /\ parentNode e = match p with
                      | [] => parent
                      | _ :: _ => node_at n (removelast p)
                      end.
Proof.
  induction p as [|i p IH]; intros parent n e He.
  - by injection He as <-.
  - cbn [entry_at node_at] in *.
    destruct (children_of n !! i) as [k|] eqn:Hk; [|done].
    destruct (IH _ _ _ He) as [Hn Hp]. split; [done|].
    rewrite Hp. destruct p as [|i' p]; [done|].
    change (removelast (i :: i' :: p)) with (i :: removelast (i' :: p)).
    cbn [node_at]. by rewrite Hk.
Qed.

Lemma node_at_entry_at (p : list nat) :
  forall parent n el,
    node_at n p = Some el ->
    exists e, entry_at parent n p = Some e /\ element e = el.
Proof.
  induction p as [|i p IH]; intros parent n el Hn.
  - injection Hn as <-. by eexists.
  - cbn [entry_at node_at] in *.
    destruct (children_of n !! i) as [k|] eqn:Hk; [|done]. by apply IH.
Qed.

Lemma selected_at_entry (s : child_selector) (root : node) (p : list nat) :
  selected_at s root p
  <-> exists e, entry_at None root p = Some e
                /\ matches s (parentNode e) (element e) = true.
Proof.
  split.
  - intros (c & el & Hp & Hc & Hel & Hmc & Hme).
    destruct (node_at_entry_at p None root el Hel) as (e & He & <-).
    exists e. split; [done|].
    destruct (entry_at_node_at p _ _ _ He) as [_ Hpar].
    destruct p as [|i p]; [done|]. rewrite Hpar, Hc. cbn. by rewrite Hmc, Hme.
  - intros (e & He & Hm).
    destruct (entry_at_node_at p _ _ _ He) as [Hn Hpar].
    destruct (parentNode e) as [c|] eqn:Hc; [|done].
    cbn in Hm. apply andb_true_iff in Hm as [Hmc Hme].
    exists c, (element e). destruct p as [|i p]; [done|]. by split_and!.
Qed.

End DomFacts.

Lemma map_result_total {A B} (f : A -> result B) (l : list A) :
  Forall (fun a => exists b, f a = inr b) l ->
  exists bs, map_result f l = inr bs /\ List.length bs = List.length l.
Proof.
  induction 1 as [|a l [b Hb] _ [bs [IH Hlen]]]; cbn [map_result].
  - by exists [].
  - rewrite Hb. cbn [bind]. rewrite IH. cbn [bind].
    exists (b :: bs). split; [done|]. cbn [List.length]. by rewrite Hlen.
Qed.

(** Edit Capture never throws: every selected element has a parent. *)
Lemma persistContents_total (root : Dom.node) :
  exists edits, persistContents root = inr edits.
Proof.
  unfold persistContents, Dom.querySelectorAll.
  destruct (map_result_total to_FieldEdit (Dom.select editable_selector None root))
    as [bs [H _]]; [|eauto].
  eapply Forall_impl; [apply DomFacts.select_has_parent|].
  intros e [p Hp]. unfold to_FieldEdit. rewrite Hp. eauto.
Qed.

(** ** The share action *)

Lemma share_click_idle (b : Browser) :
  hasSaveRequest (hooks b) = false ->
  exists edits,
    persistContents (document b) = inr edits
    /\ share_click b = fetch (save_request edits) (setSharing true b).
Proof.
  intros H. destruct (persistContents_total (document b)) as [edits He].
  exists edits. split; [done|].
  unfold share_click. rewrite H.
  change (document (setSharing true b)) with (document b). by rewrite He.
Qed.

Lemma share_click_busy (b : Browser) :
  hasSaveRequest (hooks b) = true -> share_click b = b.
Proof. intros H. unfold share_click. by rewrite H. Qed.

Lemma hasSaveRequest_share_settled (settled : result Response) (b : Browser) :
  hasSaveRequest (hooks (share_settled settled b)) = false.
Proof. unfold share_settled, finally. by destruct (share_chain settled). Qed.

Lemma sent_share_settled (settled : result Response) (b : Browser) :
  sent (share_settled settled b) = sent b.
Proof. unfold share_settled, finally. by destruct (share_chain settled). Qed.

Lemma outstanding_share_settled (settled : result Response) (b : Browser) :
  outstanding (share_settled settled b) = outstanding b.
Proof. unfold share_settled, finally. by destruct (share_chain settled). Qed.

Lemma step_single_flight (b : Browser) (ev : event) :
  single_flight b -> single_flight (step b ev).
Proof.
  unfold single_flight. intros I.
  destruct ev as [[] | settled | d]; cbn [step]; try exact I.
  - destruct (hasSaveRequest (hooks b)) eqn:Hf.
    + rewrite share_click_busy by done. by rewrite Hf.
    + destruct (share_click_idle b Hf) as [edits [_ ->]].
      cbn. rewrite length_app, I. done.
  - destruct (outstanding b) as [|r rest] eqn:Ho; [by rewrite Ho|].
    rewrite hasSaveRequest_share_settled, outstanding_share_settled. cbn.
    destruct (hasSaveRequest (hooks b)); cbn in I; [|done].
    by destruct rest.
Qed.

Lemma run_snoc (b : Browser) (evs : list event) (ev : event) :
  run b (evs ++ [ev]) = step (run b evs) ev.
Proof. unfold run. by rewrite fold_left_app. Qed.

Lemma run_single_flight (b : Browser) (evs : list event) :
  single_flight b -> single_flight (run b evs).
Proof.
  revert b. induction evs as [|ev evs IH]; intros b I; [exact I|].
  apply IH, step_single_flight, I.
Qed.

Lemma initial_single_flight (d : Dom.node) : single_flight (initial_browser d).
Proof. reflexivity. Qed.

(** Writes are bounded by the requests that have settled, plus the one
    that may be in flight. *)
Lemma sent_bound (evs : list event) (b : Browser) :
  single_flight b ->
  (List.length (sent (run b evs)) + (if hasSaveRequest (hooks (run b evs)) then 0 else 1)
   <= List.length (sent b) + List.length (List.filter is_settle evs)
      + (if hasSaveRequest (hooks b) then 0 else 1))%nat.
Proof.
  revert b. induction evs as [|ev evs IH]; intros b I; [cbn; lia|].
  change (run b (ev :: evs)) with (run (step b ev) evs).
  etrans; [apply IH, step_single_flight, I|].
  destruct ev as [[] | settled | d]; cbn [step List.filter is_settle]; try (cbn; lia).
  - destruct (hasSaveRequest (hooks b)) eqn:Hf.
    + rewrite share_click_busy by done. rewrite Hf. cbn. lia.
    + destruct (share_click_idle b Hf) as [edits [_ ->]].
      cbn. rewrite length_app. cbn. lia.
  - cbn [List.length].
    destruct (outstanding b) as [|r rest] eqn:Ho.
    + destruct (hasSaveRequest (hooks b)); lia.
    + rewrite hasSaveRequest_share_settled, sent_share_settled. cbn.
      destruct (hasSaveRequest (hooks b)); lia.
Qed.

Lemma suppressed_while_outstanding (evs : list event) (b : Browser) :
  hasSaveRequest (hooks b) = true ->
  Forall (fun ev => is_settle ev = false) evs ->
  sent (run b evs) = sent b /\ hasSaveRequest (hooks (run b evs)) = true.
Proof.
  intros Hf H. revert b Hf.
  induction H as [|ev evs Hev _ IH]; intros b Hf; [done|].
  change (run b (ev :: evs)) with (run (step b ev) evs).
  assert (sent (step b ev) = sent b /\ hasSaveRequest (hooks (step b ev)) = true) as [Hs Hf'].
  { destruct ev as [[] | settled | d]; cbn [step]; try done.
    by rewrite share_click_busy. }
  destruct (IH _ Hf') as [-> ->]. done.
Qed.

(** C4. In every state the page can reach: at most one save request is
    outstanding; the writes issued never exceed the requests that have
    settled by more than one; invoking share twice in a row from an
    idle page issues exactly one write; while a request is outstanding
    every further share is suppressed, whatever else happens, until the
    request settles; and settling, with a response or with a failure,
    lifts the suppression. *)
Theorem share_single_flight (d : Dom.node) (evs : list event) :
  (List.length (outstanding (run (initial_browser d) evs)) <= 1)%nat
  /\ (List.length (sent (run (initial_browser d) evs))
      <= S (List.length (List.filter is_settle evs)))%nat
  /\ (hasSaveRequest (hooks (run (initial_browser d) evs)) = false ->
      exists edits,
        persistContents (document (run (initial_browser d) evs)) = inr edits
        /\ sent (run (run (initial_browser d) evs) [Click share; Click share])
           = (sent (run (initial_browser d) evs) ++ [save_request edits])%list)
  /\ (hasSaveRequest (hooks (run (initial_browser d) evs)) = true ->
      outstanding (run (initial_browser d) evs) <> []
      /\ forall evs', Forall (fun ev => is_settle ev = false) evs' ->
           sent (run (run (initial_browser d) evs) evs')
           = sent (run (initial_browser d) evs))
  /\ (forall settled,
        hasSaveRequest (hooks (run (initial_browser d) (evs ++ [Settle settled]))) = false).
Proof.
  pose proof (run_single_flight _ evs (initial_single_flight d)) as I.
  pose proof (sent_bound evs _ (initial_single_flight d)) as Hb.
  set (b := run (initial_browser d) evs) in *.
  repeat split.
  - unfold single_flight in I. destruct (hasSaveRequest (hooks b)); lia.
  - cbn in Hb. destruct (hasSaveRequest (hooks b)); lia.
  - intros Hf. destruct (share_click_idle b Hf) as [edits [He Hs]].
    exists edits. split; [done|].
    cbn [run fold_left step]. rewrite Hs.
    rewrite share_click_busy by done. done.
  - unfold single_flight in I. rewrite H in I. by destruct (outstanding b).
  - intros evs' H'. by apply suppressed_while_outstanding.
  - intros settled. rewrite run_snoc. fold b. cbn [step].
    unfold single_flight in I.
    destruct (outstanding b) as [|r rest] eqn:Ho.
    + by destruct (hasSaveRequest (hooks b)).
    + apply hasSaveRequest_share_settled.
Qed.

(** ** Edit Capture *)

Lemma map_result_positions {A B P} (f : A -> result B) (g : P -> option A) (h : P -> B)
    (l : list A) (ps : list P) :
  List.map Some l = List.map g ps ->
  (forall p a, p ∈ ps -> g p = Some a -> f a = inr (h p)) ->
  map_result f l = inr (List.map h ps).
Proof.
  revert l. induction ps as [|p ps IH]; intros [|a l] Hmap Hf; try done.
  cbn [List.map] in Hmap. injection Hmap as Ha Hl.
  cbn [map_result List.map].
  rewrite (Hf p a); [|by left|done]. cbn [bind].
  rewrite (IH l Hl); [done|]. intros p' a' Hp'. apply Hf. by right.
Qed.

Lemma persistContents_paths (root : Dom.node) :
  persistContents root
  = inr (List.map (edit_at root) (Dom.select_paths editable_selector None root)).
Proof.
  unfold persistContents, Dom.querySelectorAll.
  eapply map_result_positions; [apply DomFacts.select_entries|].
  intros p e Hp He.
  apply DomFacts.elem_of_select_paths in Hp as (e' & He' & Hm).
  assert (e' = e) as -> by congruence.
  destruct (DomFacts.entry_at_node_at p _ _ _ He) as [Hn Hpar].
  unfold to_FieldEdit, edit_at.
  destruct (Dom.parentNode e) as [c|] eqn:Hc; [|done].
  destruct p as [|i p]; [done|].
  by rewrite <- Hpar, Hn.
Qed.

Lemma flat_map_select_none (s : Dom.child_selector) (kids : list Dom.node) :
  Forall (fun k => Dom.count (Dom.matches_simple (Dom.sel_child s)) k = 0%nat ->
                   forall parent, Dom.select s parent k = []) kids ->
  list_sum (List.map (Dom.count (Dom.matches_simple (Dom.sel_child s))) kids) = 0%nat ->
  forall q, flat_map (Dom.select s q) kids = [].
Proof.
  intros IH Hk q. unfold list_sum in Hk.
  induction IH as [|k kids IHk _ IHkids]; [done|].
  cbn [List.map fold_right flat_map] in *.
  rewrite IHk by lia. rewrite IHkids by lia. done.
Qed.

Lemma select_none (s : Dom.child_selector) (n : Dom.node) :
  Dom.count (Dom.matches_simple (Dom.sel_child s)) n = 0%nat ->
  forall parent, Dom.select s parent n = [].
Proof.
  induction n as [data | tag attrs txt kids IH] using DomFacts.node_induction;
    intros Hc parent.
  - cbn [Dom.select]. destruct parent as [p|]; cbn [Dom.matches]; [|done].
    change (Dom.matches_simple (Dom.sel_child s) (Dom.Text data)) with false.
    by rewrite andb_false_r.
  - cbn [Dom.count Dom.select] in *.
    destruct (Dom.matches_simple (Dom.sel_child s) (Dom.Element tag attrs txt kids)) eqn:Hm;
      [lia|].
    rewrite (flat_map_select_none s kids IH) by lia.
    destruct parent as [p|]; cbn [Dom.matches]; [|done].
    by rewrite Hm, andb_false_r.
Qed.

Lemma path_lt_irrefl (p : list nat) : ~ Dom.path_lt p p.
Proof.
  induction p as [|i p IH]; intros H; inversion H; subst; [lia | by apply IH].
Qed.

Lemma sorted_paths_NoDup (paths : list (list nat)) :
  StronglySorted Dom.path_lt paths -> NoDup paths.
Proof.
  induction 1 as [|p paths _ IH Hall]; constructor; [|done].
  intros Hin. rewrite Forall_forall in Hall.
  by apply (path_lt_irrefl p), Hall.
Qed.

(** C5. Edit Capture returns one edit per editable region of the
    document: the positions of the regions (an element with
    contenteditable=true whose parent element carries an id attribute)
    are listed without repetition in document order, and the edits are,
    in that order, the identifier of each region's container paired with
    the region's current text. *)
Theorem capture_document_order (root : Dom.node) :
  exists paths,
    (forall p, p ∈ paths <-> Dom.selected_at editable_selector root p)
    /\ NoDup paths
    /\ StronglySorted Dom.path_lt paths
    /\ persistContents root = inr (List.map (edit_at root) paths).
Proof.
  exists (Dom.select_paths editable_selector None root). split_and!.
  - intros p. by rewrite DomFacts.elem_of_select_paths, DomFacts.selected_at_entry.
  - apply sorted_paths_NoDup, DomFacts.select_paths_sorted.
  - apply DomFacts.select_paths_sorted.
  - apply persistContents_paths.
Qed.

(** C7. Edit Capture is total: it returns a sequence for every
    document.  On a document with no editable region, and so on one
    without any element marked contenteditable=true, the sequence is
    empty. *)
Theorem capture_without_regions (root : Dom.node) :
  (exists edits, persistContents root = inr edits)
  /\ ((forall p, ~ Dom.selected_at editable_selector root p) ->
      persistContents root = inr [])
  /\ (Dom.count is_editable root = 0%nat -> persistContents root = inr []).
Proof.
  split_and!.
  - apply persistContents_total.
  - intros H. rewrite persistContents_paths.
    destruct (Dom.select_paths editable_selector None root) as [|p paths] eqn:Hp; [done|].
    destruct (H p). apply DomFacts.selected_at_entry, DomFacts.elem_of_select_paths.
    rewrite Hp. by left.
  - intros H. unfold persistContents, Dom.querySelectorAll.
    by rewrite (select_none editable_selector root H).
Qed.

(** ** Snapshots: from [api/save] to the preview *)

Lemma createSnapshot_inv (fresh : string) (edits : list FieldEdit)
    (st st' : Spec.BlobStore) (sid : string) :
  Spec.createSnapshot fresh edits st = inr (sid, st') ->
  sid = fresh
  /\ Spec.reachable st' = true
  /\ Spec.objects st'
     = <[sid ++ ".json" := JSON.stringify (FieldEdits_json edits)]> (Spec.objects st).
Proof.
  unfold Spec.createSnapshot, Spec.put.
  destruct (Spec.reachable st); [|done]. by intros [= <- <-].
Qed.

(** With its environment configured, the page's read is a lookup of the
    key in the store. *)
Lemma getObject_configured (a : Spec.Access) (st : Spec.BlobStore) (client : S3.Client)
    (env : Env) (sid : string) :
  Spec.configured a env ->
  s3 env = inr client ->
  Spec.reachable st = true ->
  S3.getObject (Spec.provider a st) client (snapshot_request env sid)
  = match Spec.objects st !! (sid ++ ".json") with
    | Some value => inr {| S3.Body := Some value |}
    | None => inl (AWSError (Some 403%Z) "AccessDenied" "Access Denied")
    end.
Proof.
  intros (Hk & Hs & Hb) Hc Hr. unfold s3, S3.new in Hc. injection Hc as <-.
  unfold S3.getObject, Spec.provider, snapshot_request.
  cbn [S3.config S3.credentials S3.accessKeyId S3.secretAccessKey S3.Bucket S3.Key].
  rewrite Hk, Hs, Hb, !String.eqb_refl. cbn [andb]. unfold Spec.get. rewrite Hr.
  by destruct (Spec.objects st !! (sid ++ ".json")).
Qed.

Lemma getStaticProps_stored (a : Spec.Access) (st : Spec.BlobStore) (client : S3.Client)
    (env : Env) (sid text : string) (v : json) :
  Spec.configured a env ->
  s3 env = inr client ->
  Spec.reachable st = true ->
  Spec.objects st !! (sid ++ ".json") = Some text ->
  JSON.parse text = inr v ->
  getStaticProps (Spec.provider a st) client env (preview_of sid)
  = inr {| props := {| isPreview := true; snapshotId := Some sid; contents := Some v;
                       hasError := None; message := None |} |}.
Proof.
  intros Ha Hc Hr Hl Hp. rewrite getStaticProps_preview. unfold fetch_snapshot.
  rewrite (getObject_configured a st client env sid Ha Hc Hr), Hl.
  cbv [ret bind Body_toString S3.Body]. by rewrite Hp.
Qed.


Lemma edit_matches_FieldEdit (rid : string) (e : FieldEdit) :
  Spec.edit_matches rid (FieldEdit_json e) = String.eqb (id e) rid.
Proof. reflexivity. Qed.

(** The overlay of a batch shows what the batch submits for the region. *)
Lemma overlay_submitted (i : string) (edits : list FieldEdit) (children : list vnode) :
  Spec.overlay i (Some (FieldEdits_json edits)) children
  = match submitted edits i with
    | Some t => [VText t]
    | None => children
    end.
Proof.
  unfold Spec.overlay, FieldEdits_json, submitted.
  induction edits as [|e edits IH]; [done|].
  cbn [List.map List.find]. rewrite edit_matches_FieldEdit.
  destruct (String.eqb (id e) i); [reflexivity | exact IH].
Qed.

Lemma submitted_none (i : string) (edits : list FieldEdit) :
  (forall e, e ∈ edits -> id e <> i) -> submitted edits i = None.
Proof.
  unfold submitted. induction edits as [|e edits IH]; intros H; [done|].
  cbn [List.find]. destruct (String.eqb_spec (id e) i) as [Heq|_].
  - destruct (H e); [by left | done].
  - apply IH. intros e' He'. apply H. by right.
Qed.

Lemma submitted_some (edits : list FieldEdit) (e : FieldEdit) :
  NoDup (List.map id edits) ->
  e ∈ edits -> submitted edits (id e) = Some (innerText e).
Proof.
  unfold submitted.
  induction edits as [|e0 edits IH]; intros Hnd He; [by apply elem_of_nil in He|].
  cbn [List.map List.find] in *.
  apply NoDup_cons in Hnd as [Hnotin Hnd].
  apply elem_of_cons in He as [-> | He].
  - by rewrite String.eqb_refl.
  - destruct (String.eqb_spec (id e0) (id e)) as [Heq|_]; [|by apply IH].
    destruct Hnotin. rewrite Heq.
    apply list_elem_of_In, in_map. by apply list_elem_of_In.
Qed.

(** What the regions display when the page previews a batch. *)
Lemma shown_regions_batch (p : Props) (h : Hooks) (edits : list FieldEdit) :
  isPreview p = true ->
  contents p = Some (FieldEdits_json edits) ->
  Spec.shown_regions (Home p h)
  = List.map (fun r => (r.1, match submitted edits r.1 with
                             | Some t => [VText t]
                             | None => r.2
                             end)) default_regions.
Proof.
  intros Hp Hc. unfold Spec.shown_regions. rewrite page_regions_Home, List.map_map.
  apply List.map_ext. intros [i d]. cbn [fst snd]. unfold Home_edits. rewrite Hp, Hc.
  by rewrite overlay_submitted.
Qed.

(** C1. Round trip.  With the environment configured for the store,
    when the Snapshot Service has stored a batch of edits with distinct
    identifiers (the empty batch included) and returned [sid], the
    preview request for [sid] gets the props of a preview whose contents
    are the batch, and the page shows its fourteen regions in order,
    each with the text the batch submits for it, or with its default
    content when the batch has no edit for it: every submitted edit for
    a region of the page is shown there, and nothing else is
    changed. *)
Theorem snapshot_round_trip
    (a : Spec.Access) (fresh : string) (edits : list FieldEdit)
    (st st' : Spec.BlobStore) (sid : string) (client : S3.Client) (env : Env) :
  Spec.configured a env ->
  s3 env = inr client ->
  NoDup (List.map id edits) ->
  Spec.createSnapshot fresh edits st = inr (sid, st') ->
  exists sp,
    getStaticProps (Spec.provider a st') client env (preview_of sid) = inr sp
    /\ props sp = {| isPreview := true; snapshotId := Some sid;
                     contents := Some (FieldEdits_json edits);
                     hasError := None; message := None |}
    /\ forall h,
         Spec.shown_regions (Home (props sp) h)
         = List.map (fun r => (r.1, match submitted edits r.1 with
                                    | Some t => [VText t]
                                    | None => r.2
                                    end)) default_regions
         /\ List.map fst (Spec.shown_regions (Home (props sp) h)) = region_ids
         /\ (forall e, e ∈ edits -> id e ∈ region_ids ->
               (id e, [VText (innerText e)]) ∈ Spec.shown_regions (Home (props sp) h))
         /\ (forall i d, (i, d) ∈ default_regions ->
               (forall e, e ∈ edits -> id e <> i) ->
               (i, d) ∈ Spec.shown_regions (Home (props sp) h)).
Proof.
  intros Ha Hcl Hnd Hc. apply createSnapshot_inv in Hc as (-> & Hr & Ho).
  eexists. split.
  { apply (getStaticProps_stored a st' client env fresh
             (JSON.stringify (FieldEdits_json edits)) (FieldEdits_json edits) Ha Hcl Hr).
    - rewrite Ho. apply lookup_insert_eq.
    - apply JSONFacts.parse_stringify_FieldEdits. }
  split; [reflexivity|].
  - intros h. cbn [props].
    rewrite (shown_regions_batch
               {| isPreview := true; snapshotId := Some fresh;
                  contents := Some (FieldEdits_json edits);
                  hasError := None; message := None |} h edits eq_refl eq_refl).
    split_and!.
    + reflexivity.
    + rewrite List.map_map. reflexivity.
    + intros e He Hid.
      change region_ids with (List.map fst default_regions) in Hid.
      apply list_elem_of_In, in_map_iff in Hid as ([i d] & Hi & Hin). cbn [fst] in Hi. subst i.
      apply list_elem_of_In, in_map_iff. exists (id e, d). split; [|exact Hin].
      cbn [fst snd]. by rewrite (submitted_some edits e Hnd He).
    + intros i d Hin Hno.
      apply list_elem_of_In, in_map_iff. exists (i, d). split; [|by apply list_elem_of_In].
      cbn [fst snd]. by rewrite (submitted_none i edits Hno).
Qed.


(** ** Examples *)

Example capture_b_a :
  persistContents page_b_a
  = inr [{| id := "b"; innerText := "B" |}; {| id := "a"; innerText := "A" |}].
Proof. vm_compute. reflexivity. Qed.

Example capture_b_a_positions :
  Dom.select_paths editable_selector None page_b_a = [[0; 0]; [1; 0]]%nat.
Proof. vm_compute. reflexivity. Qed.

Lemma capture_without_regions_witness :
  Dom.count is_editable page_static = 0%nat
  /\ persistContents page_static = inr [].
Proof.
  split; [reflexivity|].
  apply (capture_without_regions page_static). reflexivity.
Defined.

Lemma demo_configured : Spec.configured demo_access demo_env.
Proof. unfold Spec.configured, demo_env. by simplify_map_eq. Qed.

Lemma snapshot_round_trip_witness :
  Spec.configured demo_access demo_env
  /\ s3 demo_env = inr demo_client
  /\ NoDup (List.map id hello)
  /\ Spec.createSnapshot "abc123" hello empty_store = inr ("abc123", hello_store)
  /\ exists sp,
       getStaticProps (Spec.provider demo_access hello_store) demo_client demo_env
         (preview_of "abc123")
       = inr sp
       /\ props sp = {| isPreview := true; snapshotId := Some "abc123";
                        contents := Some (FieldEdits_json hello);
                        hasError := None; message := None |}
       /\ forall h,
            Spec.shown_regions (Home (props sp) h)
            = List.map (fun r => (r.1, match submitted hello r.1 with
                                       | Some t => [VText t]
                                       | None => r.2
                                       end)) default_regions
            /\ List.map fst (Spec.shown_regions (Home (props sp) h)) = region_ids
            /\ (forall e, e ∈ hello -> id e ∈ region_ids ->
                  (id e, [VText (innerText e)]) ∈ Spec.shown_regions (Home (props sp) h))
            /\ (forall i d, (i, d) ∈ default_regions ->
                  (forall e, e ∈ hello -> id e <> i) ->
                  (i, d) ∈ Spec.shown_regions (Home (props sp) h)).
Proof.
  assert (NoDup (List.map id hello)) as Hnd
    by (apply (bool_decide_unpack _); vm_compute; exact I).
  assert (s3 demo_env = inr demo_client) as Hcl
    by (unfold s3, S3.new, demo_env, demo_client; by simplify_map_eq).
  split; [exact demo_configured|]. split; [exact Hcl|].
  split; [exact Hnd|]. split; [reflexivity|].
  apply (snapshot_round_trip demo_access "abc123" hello empty_store hello_store "abc123"
           demo_client demo_env);
    [exact demo_configured | exact Hcl | exact Hnd | reflexivity].
Defined.


(** The end-to-end example on the whole page: [title] shows "Hello",
    the thirteen other regions their default content. *)
Example hello_page :
  Spec.shown_regions
    (Home {| isPreview := true; snapshotId := Some "abc123";
             contents := Some (FieldEdits_json hello);
             hasError := None; message := None |} (idle false))
  = ("title", [VText "Hello"]) :: List.tl default_regions.
Proof. vm_compute. reflexivity. Qed.

(** The end-to-end example: the region [title] shows "Hello". *)
Example hello_title :
  Spec.overlay "title" (Some (FieldEdits_json hello)) [VText "My Static Site"]
  = [VText "Hello"].
Proof. reflexivity. Qed.

Example hello_other :
  Spec.overlay "feature-1-text" (Some (FieldEdits_json hello)) [VText "Blazing fast"]
  = [VText "Blazing fast"].
Proof. reflexivity. Qed.

Example hello_stored_text :
  JSON.stringify (FieldEdits_json hello)
  = "[{" ++ JSON.quote "id" ++ ":" ++ JSON.quote "title" ++ ","
      ++ JSON.quote "innerText" ++ ":" ++ JSON.quote "Hello" ++ "}]".
Proof. reflexivity. Qed.

(** ** Where the page falls short of its error handling *)

(** C2 (what the code does). A preview whose read is denied with status
    403 gets the error props with the does-not-exist message, but
    [Home] never reads the message: the page is the same whatever the
    message is, and the message is nowhere in the page, whose alert
    holds only the "Preview Mode" link. *)
Theorem preview_error_message_not_rendered :
  getStaticProps (fun _ _ => throw denied) no_credentials ∅ (preview_of "abc123")
  = inr {| props := error_props message_not_found |}
  /\ (forall p h m, Home (with_message m p) h = Home p h)
  /\ (forall isEdit,
        message_not_found ∉ flat_map strings_of (Home (error_props message_not_found) (idle isEdit)))
  /\ (forall isEdit,
        VElement "aside" [("role", "alert")]
          [VElement "a" [("href", "/api/exit")] [VText "Preview Mode"]]
        ∈ flat_map (fun v => match v with VElement _ _ c => c | _ => [] end)
            (Home (error_props message_not_found) (idle isEdit))).
Proof.
  split_and!.
  - reflexivity.
  - intros. apply Home_ignores_message.
  - intros []; apply (bool_decide_unpack _); vm_compute; exact I.
  - intros []; apply list_elem_of_In; vm_compute; by left.
Qed.

(** C6 (what the code does). The response to the save request has
    status 500, yet its body is read as if the request had succeeded:
    the identifier found in it is stored and the share-link dialog is
    rendered with it. *)
Theorem failed_save_shows_dialog :
  ok failed_save = false
  /\ currentSnapshotId
       (hooks (run (initial_browser page_b_a)
                 [Click toggleEdit; Click share; Settle (inr failed_save)]))
     = Some (JString "abc123")
  /\ ShareLinkDialog (JString "abc123") clearSnapshot
     ∈ Home normal_props
         (hooks (run (initial_browser page_b_a)
                   [Click toggleEdit; Click share; Settle (inr failed_save)])).
Proof.
  split_and!.
  - reflexivity.
  - vm_compute. reflexivity.
  - apply list_elem_of_In. vm_compute. right. by left.
Qed.

(** C9 (counterexample). With an empty environment the module still
    loads: the client is built with undefined credentials, nothing is
    thrown, and a request outside Preview Mode is served. *)
Lemma startup_with_empty_environment :
  (∅ : Env) !! "AWS_S3_ACCESS_KEY_ID" = None
  /\ (∅ : Env) !! "AWS_S3_SECRET_ACCESS_KEY" = None
  /\ (∅ : Env) !! "AWS_S3_BUCKET" = None
  /\ s3 ∅ = inr no_credentials
  /\ (forall e, s3 ∅ <> inl e)
  /\ (forall provider,
        getStaticProps provider no_credentials ∅ normal_request
        = inr {| props := normal_props |}).
Proof. split_and!; try reflexivity. intros e. discriminate. Qed.

(** C9 (amended). Whatever the environment lacks, loading the module
    does not fail: the client is built with the credentials as found,
    absent ones undefined, and requests outside Preview Mode are
    served.  A failure can only come from the store read of a preview
    request, and there it is caught and turned into the error props. *)
Theorem startup_never_fails (env : Env) :
  exists client,
    s3 env = inr client
    /\ S3.accessKeyId (S3.credentials (S3.config client)) = env !! "AWS_S3_ACCESS_KEY_ID"
    /\ S3.secretAccessKey (S3.credentials (S3.config client)) = env !! "AWS_S3_SECRET_ACCESS_KEY"
    /\ (forall provider,
          getStaticProps provider client env normal_request = inr {| props := normal_props |})
    /\ (forall provider snapshotId,
          S3.Bucket (snapshot_request env snapshotId) = env !! "AWS_S3_BUCKET"
          /\ forall e,
               S3.getObject provider client (snapshot_request env snapshotId) = inl e ->
               getStaticProps provider client env (preview_of snapshotId)
               = inr (on_fetch_error e)).
Proof.
  eexists. split_and!; try reflexivity.
  intros provider sid. split; [reflexivity|].
  intros e H. apply getStaticProps_failure. unfold fetch_snapshot. by rewrite H.
Qed.

(** * Further properties of the page *)

(** ** [getStaticProps] *)

Lemma parse_error_statusCode (text : string) (e : exn) :
  JSON.parse text = inl e -> statusCode e = None.
Proof.
  unfold JSON.parse.
  destruct (JSON.parse_value _ _) as [[v rest]|]; [|by intros [= <-]].
  destruct (JSON.skip_ws rest); [done | by intros [= <-]].
Qed.

Lemma Body_toString_Some (o : S3.GetObjectOutput) (text : string) :
  S3.Body o = Some text -> Body_toString o = inr text.
Proof. unfold Body_toString. by intros ->. Qed.

Lemma fetch_snapshot_success (provider : S3.Provider) (client : S3.Client) (env : Env)
    (sid : string) (o : S3.GetObjectOutput) (text : string) (v : json) :
  S3.getObject provider client (snapshot_request env sid) = inr o ->
  S3.Body o = Some text ->
  JSON.parse text = inr v ->
  fetch_snapshot provider client env sid
  = inr {| props := {| isPreview := true; snapshotId := Some sid; contents := Some v;
                       hasError := None; message := None |} |}.
Proof.
  intros Ho Hb Hp. unfold fetch_snapshot. rewrite Ho. cbn [bind].
  rewrite (Body_toString_Some o text Hb). cbn [bind]. by rewrite Hp.
Qed.

Lemma fetch_snapshot_inv (provider : S3.Provider) (client : S3.Client) (env : Env)
    (sid : string) (sp : StaticProps) :
  fetch_snapshot provider client env sid = inr sp ->
  exists o text v,
    S3.getObject provider client (snapshot_request env sid) = inr o
    /\ S3.Body o = Some text
    /\ JSON.parse text = inr v
    /\ props sp = {| isPreview := true; snapshotId := Some sid; contents := Some v;
                     hasError := None; message := None |}.
Proof.
  unfold fetch_snapshot, Body_toString.
  destruct (S3.getObject _ _ _) as [e|o] eqn:Ho; cbv [bind ret throw]; [done|].
  destruct (S3.Body o) as [text|] eqn:Hb; [|done].
  destruct (JSON.parse text) as [e|v] eqn:Hp; [done|].
  intros [= <-]. exists o, text, v. split_and!; reflexivity || assumption.
Qed.

(** X1. A preview request is always answered with props.  When the
    object is read, has a body and the body is JSON, the props are those
    of a preview and carry the requested identifier and the parsed
    value; and the props are those of a preview only then. *)
Theorem preview_succeeds_iff
    (provider : S3.Provider) (client : S3.Client) (env : Env) (sid : string) :
  exists sp,
    getStaticProps provider client env (preview_of sid) = inr sp
    /\ (forall o text v,
          S3.getObject provider client (snapshot_request env sid) = inr o ->
          S3.Body o = Some text ->
          JSON.parse text = inr v ->
          props sp = {| isPreview := true; snapshotId := Some sid;
                        contents := Some v; hasError := None; message := None |})
    /\ (isPreview (props sp) = true ->
        exists o text v,
          S3.getObject provider client (snapshot_request env sid) = inr o
          /\ S3.Body o = Some text
          /\ JSON.parse text = inr v
          /\ props sp = {| isPreview := true; snapshotId := Some sid;
                           contents := Some v; hasError := None; message := None |})
    /\ (isPreview (props sp) = true
        <-> exists o text v,
              S3.getObject provider client (snapshot_request env sid) = inr o
              /\ S3.Body o = Some text
              /\ JSON.parse text = inr v).
Proof.
  eexists. split; [apply getStaticProps_preview|].
  destruct (fetch_snapshot provider client env sid) as [e|sp'] eqn:Hf; cbn [try_catch].
  - assert (forall o text v,
              S3.getObject provider client (snapshot_request env sid) = inr o ->
              S3.Body o = Some text -> JSON.parse text = inr v -> False) as Hno.
    { intros o text v Ho Hb Hp.
      rewrite (fetch_snapshot_success _ _ _ _ o text v Ho Hb Hp) in Hf. discriminate Hf. }
    split_and!.
    + intros o text v Ho Hb Hp. destruct (Hno o text v Ho Hb Hp).
    + intros [=].
    + split; [intros [=]|]. intros (o & text & v & Ho & Hb & Hp). destruct (Hno o text v Ho Hb Hp).
  - destruct (fetch_snapshot_inv _ _ _ _ _ Hf) as (o & text & v & Ho & Hb & Hp & Hprops).
    split_and!.
    + intros o' text' v' Ho' Hb' Hp'.
      rewrite (fetch_snapshot_success _ _ _ _ o' text' v' Ho' Hb' Hp') in Hf.
      by injection Hf as <-.
    + intros _. by exists o, text, v.
    + split; [intros _; by exists o, text, v|]. intros _. by rewrite Hprops.
Qed.

(** X2. When the object is read but has no body, or its body is not
    JSON, the preview is answered with props that are no preview, flag
    an error and carry the generic message, not the does-not-exist
    message. *)
Theorem unreadable_body_is_unknown_error
    (provider : S3.Provider) (client : S3.Client) (env : Env) (sid : string)
    (o : S3.GetObjectOutput) :
  S3.getObject provider client (snapshot_request env sid) = inr o ->
  (S3.Body o = None
   \/ exists text e, S3.Body o = Some text /\ JSON.parse text = inl e) ->
  getStaticProps provider client env (preview_of sid)
  = inr {| props := error_props message_unknown |}
  /\ exists sp,
       getStaticProps provider client env (preview_of sid) = inr sp
       /\ isPreview (props sp) = false
       /\ hasError (props sp) = Some true
       /\ message (props sp)
          = Some "An unknown error has occurred. Please refresh the page or exit Preview Mode."
       /\ message (props sp) <> Some "The requested preview edit does not exist!".
Proof.
  intros Ho H.
  assert (getStaticProps provider client env (preview_of sid)
          = inr {| props := error_props message_unknown |}) as Hg.
  { rewrite getStaticProps_preview. unfold fetch_snapshot. rewrite Ho.
    cbn [bind]. destruct H as [Hb | (text & e & Hb & Hp)].
    - unfold Body_toString. by rewrite Hb.
    - rewrite (Body_toString_Some o text Hb). cbn [bind]. rewrite Hp. cbn [bind try_catch].
      unfold on_fetch_error. by rewrite (parse_error_statusCode text e Hp). }
  split; [exact Hg|]. eexists. split; [exact Hg|].
  split_and!; try reflexivity. discriminate.
Qed.

Lemma unreadable_body_is_unknown_error_witness :
  S3.getObject malformed_body no_credentials (snapshot_request ∅ "abc123")
  = inr {| S3.Body := Some "{" |}
  /\ (exists text e, S3.Body {| S3.Body := Some "{" |} = Some text /\ JSON.parse text = inl e)
  /\ getStaticProps malformed_body no_credentials ∅ (preview_of "abc123")
     = inr {| props := error_props message_unknown |}
  /\ exists sp,
       getStaticProps malformed_body no_credentials ∅ (preview_of "abc123") = inr sp
       /\ isPreview (props sp) = false
       /\ hasError (props sp) = Some true
       /\ message (props sp)
          = Some "An unknown error has occurred. Please refresh the page or exit Preview Mode."
       /\ message (props sp) <> Some "The requested preview edit does not exist!".
Proof.
  assert (exists text e, S3.Body {| S3.Body := Some "{" |} = Some text
                         /\ JSON.parse text = inl e) as H
    by (eexists _, _; split; reflexivity).
  split; [reflexivity|]. split; [exact H|].
  apply (unreadable_body_is_unknown_error malformed_body no_credentials ∅ "abc123"
           {| S3.Body := Some "{" |}); [reflexivity | right; exact H].
Defined.

(** X3. In a successful preview every region of the page is handed the
    parsed content of the stored object, unchanged, whatever the state
    of the component. *)
Theorem preview_contents_reach_regions
    (provider : S3.Provider) (client : S3.Client) (env : Env) (sid : string)
    (o : S3.GetObjectOutput) (text : string) (v : json) :
  S3.getObject provider client (snapshot_request env sid) = inr o ->
  S3.Body o = Some text ->
  JSON.parse text = inr v ->
  exists sp,
    getStaticProps provider client env (preview_of sid) = inr sp
    /\ forall h, Forall (fun r => r.1.2 = Some v) (page_regions (Home (props sp) h)).
Proof.
  intros Ho Hb Hp. eexists. split.
  - rewrite getStaticProps_preview, (fetch_snapshot_success _ _ _ _ o text v) by done.
    reflexivity.
  - intros h. cbn [try_catch props].
    apply (Home_regions_edits
             {| isPreview := true; snapshotId := Some sid; contents := Some v;
                hasError := None; message := None |} h).
Qed.

Lemma preview_contents_reach_regions_witness :
  S3.getObject (constant_body "[]") no_credentials (snapshot_request ∅ "abc123")
  = inr {| S3.Body := Some "[]" |}
  /\ JSON.parse "[]" = inr (JArray [])
  /\ exists sp,
       getStaticProps (constant_body "[]") no_credentials ∅ (preview_of "abc123") = inr sp
       /\ forall h, Forall (fun r => r.1.2 = Some (JArray []))
                      (page_regions (Home (props sp) h)).
Proof.
  split; [reflexivity|]. split; [reflexivity|].
  apply (preview_contents_reach_regions (constant_body "[]") no_credentials ∅ "abc123"
           {| S3.Body := Some "[]" |} "[]" (JArray [])); reflexivity.
Defined.

Lemma append_json_inj (a b : string) : a ++ ".json" = b ++ ".json" -> a = b.
Proof.
  revert b. induction a as [|x a IH]; intros [|y b] H.
  - done.
  - apply (f_equal String.length) in H.
    rewrite !JSONFacts.length_append in H. cbn [String.length] in H. lia.
  - apply (f_equal String.length) in H.
    rewrite !JSONFacts.length_append in H. cbn [String.length] in H. lia.
  - rewrite !JSONFacts.append_cons in H. injection H as -> H. f_equal. by apply IH.
Qed.

(** X4. Previews of different snapshots never read the same object:
    different identifiers give different keys. *)
Theorem snapshot_key_injective (env : Env) (sid1 sid2 : string) :
  sid1 <> sid2 ->
  S3.Key (snapshot_request env sid1) <> S3.Key (snapshot_request env sid2).
Proof.
  intros Hne Hk. apply Hne. cbn [snapshot_request S3.Key] in Hk.
  by apply append_json_inj.
Qed.

Lemma snapshot_key_injective_witness :
  "abc123" <> "xyz789"
  /\ S3.Key (snapshot_request ∅ "abc123") <> S3.Key (snapshot_request ∅ "xyz789").
Proof.
  assert ("abc123" <> "xyz789") as H by (apply (bool_decide_unpack _); vm_compute; exact I).
  split; [exact H|].
  apply (snapshot_key_injective ∅ "abc123" "xyz789"). exact H.
Defined.

(** ** What the page shows *)

Lemma elements_and_render (tag : string) (value : option json) (cb : callback) :
  flat_map (elements tag) (and_render value (fun v => ShareLinkDialog v cb)) = [].
Proof.
  unfold and_render. destruct value as [v|]; [|done].
  destruct (truthy (Some v)); [done|]. by destruct v.
Qed.

Lemma alerts_Home (p : Props) (h : Hooks) :
  flat_map (elements "aside") (Home p h)
  = if isPreview p || default false (hasError p) then [preview_alert] else [].
Proof.
  unfold Home. rewrite !flat_map_app, elements_and_render.
  destruct (isPreview p || default false (hasError p)); destruct (isEdit h); reflexivity.
Qed.

(** X5. Whatever the store answers, the page built from the props of
    [getStaticProps] carries the "Preview Mode" alert with its exit
    link exactly when the request was in Preview Mode, be the preview
    shown or failed, and carries no alert otherwise. *)
Theorem alert_iff_preview
    (provider : S3.Provider) (client : S3.Client) (env : Env)
    (ctx : Context) (sp : StaticProps) (h : Hooks) :
  getStaticProps provider client env ctx = inr sp ->
  flat_map (elements "aside") (Home (props sp) h)
  = if preview ctx then [preview_alert] else [].
Proof.
  unfold getStaticProps. rewrite alerts_Home. destruct (preview ctx).
  - destruct (previewData ctx) as [data|]; [|done]. intros [= <-].
    destruct (fetch_snapshot provider client env (pd_snapshotId data)) as [e|sp'] eqn:Hf;
      cbn [try_catch]; [done|].
    by destruct (fetch_snapshot_props _ _ _ _ _ Hf) as [-> _].
  - by intros [= <-].
Qed.

Lemma alert_iff_preview_witness :
  getStaticProps (fun _ _ => throw denied) no_credentials ∅ (preview_of "abc123")
  = inr {| props := error_props message_not_found |}
  /\ flat_map (elements "aside") (Home (error_props message_not_found) (idle false))
     = [preview_alert].
Proof.
  split; [reflexivity|].
  apply (alert_iff_preview (fun _ _ => throw denied) no_credentials ∅ (preview_of "abc123")
           {| props := error_props message_not_found |} (idle false)).
  reflexivity.
Defined.

Lemma shown_dialogs_app (a b : list vnode) :
  shown_dialogs (a ++ b) = (shown_dialogs a ++ shown_dialogs b)%list.
Proof. apply flat_map_app. Qed.

Lemma shown_dialogs_Home (p : Props) (h : Hooks) :
  shown_dialogs (Home p h)
  = match currentSnapshotId h with
    | Some v => if truthy (Some v) then [v] else []
    | None => []
    end.
Proof.
  unfold Home. rewrite !shown_dialogs_app.
  replace (shown_dialogs [if isEdit h then Snapshot toggleEdit share (isSharingView h)
                          else Edit toggleEdit]) with (@nil json)
    by (by destruct (isEdit h)).
  unfold and_render. destruct (currentSnapshotId h) as [v|]; [|done].
  destruct (truthy (Some v)); [done|]. by destruct v.
Qed.

Lemma controls_app (a b : list vnode) :
  controls (a ++ b) = (controls a ++ controls b)%list.
Proof. apply flat_map_app. Qed.

Lemma controls_Home (p : Props) (h : Hooks) :
  controls (Home p h)
  = [if isEdit h then Snapshot toggleEdit share (isSharingView h) else Edit toggleEdit].
Proof.
  unfold Home. rewrite !controls_app.
  replace (controls (and_render (currentSnapshotId h)
                       (fun v => ShareLinkDialog v clearSnapshot))) with (@nil vnode).
  - by destruct (isEdit h).
  - unfold and_render. destruct (currentSnapshotId h) as [v|]; [|done].
    destruct (truthy (Some v)); [done|]. by destruct v.
Qed.

Lemma active_flags_Home (p : Props) (h : Hooks) :
  flat_map active_flags (Home p h) = List.map (fun i => (i, isEdit h)) region_ids.
Proof.
  unfold Home. rewrite !flat_map_app.
  replace (flat_map active_flags (and_render (currentSnapshotId h)
                                    (fun v => ShareLinkDialog v clearSnapshot)))
    with (@nil (string * bool)).
  - destruct (isPreview p || default false (hasError p)); destruct (isEdit h); reflexivity.
  - unfold and_render. destruct (currentSnapshotId h) as [v|]; [|done].
    destruct (truthy (Some v)); [done|]. by destruct v.
Qed.

Lemma region_ids_Home (p : Props) (h : Hooks) :
  List.map (fun r => r.1.1) (page_regions (Home p h)) = region_ids.
Proof.
  unfold Home. rewrite !page_regions_app, regions_and_render by done.
  destruct (isPreview p || default false (hasError p)); destruct (isEdit h); reflexivity.
Qed.

(** X6. The page has the same fourteen regions for every props and every
    state of the component, and no two of them share an identifier. *)
Theorem regions_fixed_and_distinct (p : Props) (h : Hooks) :
  List.map (fun r => r.1.1) (page_regions (Home p h)) = region_ids
  /\ NoDup (List.map (fun r => r.1.1) (page_regions (Home p h)))
  /\ List.length (page_regions (Home p h)) = 14%nat.
Proof.
  assert (NoDup region_ids) as Hnd by (apply (bool_decide_unpack _); vm_compute; exact I).
  pose proof (region_ids_Home p h) as Hid. split_and!.
  - exact Hid.
  - by rewrite Hid.
  - apply (f_equal List.length) in Hid. by rewrite length_map in Hid.
Qed.

(** X7. The regions are editable exactly in edit mode, where the page
    ends with the [Snapshot] bar instead of the [Edit] button; a click
    on either toggles the mode and touches nothing else, and a second
    click restores the state. *)
Theorem edit_mode_toggle (b : Browser) (p : Props) :
  flat_map active_flags (Home p (hooks b)) = List.map (fun i => (i, isEdit (hooks b))) region_ids
  /\ controls (Home p (hooks b))
     = [if isEdit (hooks b)
        then Snapshot toggleEdit share (isSharingView (hooks b))
        else Edit toggleEdit]
  /\ isEdit (hooks (step b (Click toggleEdit))) = negb (isEdit (hooks b))
  /\ currentSnapshotId (hooks (step b (Click toggleEdit))) = currentSnapshotId (hooks b)
  /\ hasSaveRequest (hooks (step b (Click toggleEdit))) = hasSaveRequest (hooks b)
  /\ sent (step b (Click toggleEdit)) = sent b
  /\ run b [Click toggleEdit; Click toggleEdit] = b.
Proof.
  split_and!; try reflexivity.
  - apply active_flags_Home.
  - apply controls_Home.
  - destruct b as [[cur ed flag view] doc snt out]. cbn. by rewrite negb_involutive.
Qed.

(** ** The share action, continued *)

Lemma step_sharing_view (b : Browser) (ev : event) :
  isSharingView (hooks b) = hasSaveRequest (hooks b) ->
  isSharingView (hooks (step b ev)) = hasSaveRequest (hooks (step b ev)).
Proof.
  intros I. destruct ev as [[] | settled | d]; cbn [step]; try exact I.
  - destruct (hasSaveRequest (hooks b)) eqn:Hf.
    + rewrite share_click_busy by done. by rewrite Hf.
    + by destruct (share_click_idle b Hf) as [edits [_ ->]].
  - destruct (outstanding b); [exact I|].
    unfold share_settled, finally. by destruct (share_chain settled).
Qed.

Lemma run_sharing_view (evs : list event) (b : Browser) :
  isSharingView (hooks b) = hasSaveRequest (hooks b) ->
  isSharingView (hooks (run b evs)) = hasSaveRequest (hooks (run b evs)).
Proof.
  revert b. induction evs as [|ev evs IH]; intros b I; [exact I|].
  apply IH, step_sharing_view, I.
Qed.

(** X8. In every state the page can reach, the sharing indicator
    handed to the [Snapshot] bar is on exactly while a save request is
    outstanding. *)
Theorem sharing_view_tracks_request (d : Dom.node) (evs : list event) (p : Props) :
  isSharingView (hooks (run (initial_browser d) evs))
  = hasSaveRequest (hooks (run (initial_browser d) evs))
  /\ (isSharingView (hooks (run (initial_browser d) evs)) = true
      <-> outstanding (run (initial_browser d) evs) <> [])
  /\ (isEdit (hooks (run (initial_browser d) evs)) = true ->
      controls (Home p (hooks (run (initial_browser d) evs)))
      = [Snapshot toggleEdit share
           (bool_decide (outstanding (run (initial_browser d) evs) <> []))]).
Proof.
  pose proof (run_sharing_view evs (initial_browser d) eq_refl) as Hv.
  pose proof (run_single_flight _ evs (initial_single_flight d)) as I.
  set (b := run (initial_browser d) evs) in *. unfold single_flight in I.
  assert (isSharingView (hooks b) = true <-> outstanding b <> []) as Hiff.
  { rewrite Hv. destruct (hasSaveRequest (hooks b)), (outstanding b); naive_solver. }
  split_and!; [exact Hv | exact Hiff |].
  intros He. rewrite controls_Home, He. do 2 f_equal.
  destruct (isSharingView (hooks b)).
  - symmetry. apply bool_decide_eq_true. by apply Hiff.
  - symmetry. apply bool_decide_eq_false. intros H. apply Hiff in H. done.
Qed.

Lemma sent_step (b : Browser) (ev : event) :
  sent (step b ev) = sent b
  \/ (ev = Click share
      /\ exists edits,
           persistContents (document b) = inr edits
           /\ sent (step b ev) = (sent b ++ [save_request edits])%list).
Proof.
  destruct ev as [[] | settled | d]; cbn [step]; try by left.
  - destruct (hasSaveRequest (hooks b)) eqn:Hf.
    + left. by rewrite share_click_busy.
    + right. split; [done|]. destruct (share_click_idle b Hf) as [edits [He ->]]. eauto.
  - left. destruct (outstanding b); [done|]. by rewrite sent_share_settled.
Qed.

(** X9. Every request the page ever sends comes from a click on share:
    it is a POST to /api/save whose body is the JSON text of the edits
    captured from the document as it was at that click, and the body
    parses back to exactly those edits. *)
Theorem sent_requests_are_captures (d : Dom.node) (evs : list event) (req : Request) :
  req ∈ sent (run (initial_browser d) evs) ->
  exists evs1 evs2 edits,
    evs = (evs1 ++ Click share :: evs2)%list
    /\ persistContents (document (run (initial_browser d) evs1)) = inr edits
    /\ req = save_request edits
    /\ url req = "/api/save"
    /\ method req = "POST"
    /\ headers req = [("content-type", "application/json")]
    /\ JSON.parse (body req) = inr (FieldEdits_json edits).
Proof.
  induction evs as [|ev evs IH] using rev_ind; intros Hin.
  - by apply elem_of_nil in Hin.
  - rewrite run_snoc in Hin.
    destruct (sent_step (run (initial_browser d) evs) ev)
      as [Hs | (-> & edits & He & Hs)]; rewrite Hs in Hin.
    + destruct (IH Hin) as (evs1 & evs2 & edits & -> & H).
      exists evs1, (evs2 ++ [ev])%list, edits. split; [|exact H].
      by rewrite <- app_assoc.
    + apply elem_of_app in Hin as [Hin | Hin%list_elem_of_singleton].
      * destruct (IH Hin) as (evs1 & evs2 & edits' & -> & H).
        exists evs1, (evs2 ++ [Click share])%list, edits'. split; [|exact H].
        by rewrite <- app_assoc.
      * subst req. exists evs, [], edits. split_and!; try done.
        apply JSONFacts.parse_stringify_FieldEdits.
Qed.

Lemma sent_requests_are_captures_witness :
  save_request [{| id := "b"; innerText := "B" |}; {| id := "a"; innerText := "A" |}]
  ∈ sent (run (initial_browser page_b_a) [Click toggleEdit; Click share])
  /\ exists evs1 evs2 edits,
       [Click toggleEdit; Click share] = (evs1 ++ Click share :: evs2)%list
       /\ persistContents (document (run (initial_browser page_b_a) evs1)) = inr edits
       /\ save_request [{| id := "b"; innerText := "B" |}; {| id := "a"; innerText := "A" |}]
          = save_request edits
       /\ url (save_request [{| id := "b"; innerText := "B" |};
                             {| id := "a"; innerText := "A" |}]) = "/api/save"
       /\ method (save_request [{| id := "b"; innerText := "B" |};
                                {| id := "a"; innerText := "A" |}]) = "POST"
       /\ headers (save_request [{| id := "b"; innerText := "B" |};
                                 {| id := "a"; innerText := "A" |}])
          = [("content-type", "application/json")]
       /\ JSON.parse (body (save_request [{| id := "b"; innerText := "B" |};
                                          {| id := "a"; innerText := "A" |}]))
          = inr (FieldEdits_json edits).
Proof.
  assert (save_request [{| id := "b"; innerText := "B" |}; {| id := "a"; innerText := "A" |}]
          ∈ sent (run (initial_browser page_b_a) [Click toggleEdit; Click share])) as H
    by (apply list_elem_of_In; vm_compute; by left).
  split; [exact H|].
  apply (sent_requests_are_captures page_b_a [Click toggleEdit; Click share]). exact H.
Defined.

Lemma step_settle_outstanding (b : Browser) (settled : result Response) :
  outstanding b <> [] ->
  hooks (step b (Settle settled))
  = {| currentSnapshotId :=
         match share_chain settled with
         | inr v => v
         | inl _ => currentSnapshotId (hooks b)
         end;
       isEdit := isEdit (hooks b);
       hasSaveRequest := false;
       isSharingView := false |}
  /\ sent (step b (Settle settled)) = sent b
  /\ document (step b (Settle settled)) = document b.
Proof.
  intros Ho. cbn [step]. destruct (outstanding b) as [|r rest]; [done|].
  unfold share_settled, finally. by destruct (share_chain settled).
Qed.

(** X10. When the outstanding save settles with a response whose JSON
    body has a non-empty string as [snapshotId], the share-link dialog
    opens for that identifier and sharing is possible again; a click on
    the dialog's exit closes it. *)
Theorem saved_snapshot_opens_dialog
    (b : Browser) (res : Response) (v : json) (s : string) (p : Props) :
  outstanding b <> [] ->
  JSON.parse (text res) = inr v ->
  get_property v "snapshotId" = inr (Some (JString s)) ->
  s <> EmptyString ->
  shown_dialogs (Home p (hooks (step b (Settle (inr res))))) = [JString s]
  /\ hasSaveRequest (hooks (step b (Settle (inr res)))) = false
  /\ shown_dialogs (Home p (hooks (run b [Settle (inr res); Click clearSnapshot]))) = [].
Proof.
  intros Ho Hp Hg Hs.
  destruct (step_settle_outstanding b (inr res) Ho) as (Hh & _ & _).
  assert (share_chain (inr res) = inr (Some (JString s))) as Hc.
  { unfold share_chain. cbn [bind]. rewrite Hp. cbn [bind]. exact Hg. }
  rewrite Hc in Hh. split_and!.
  - rewrite shown_dialogs_Home, Hh. cbn [currentSnapshotId truthy].
    by destruct (String.eqb_spec s EmptyString).
  - by rewrite Hh.
  - cbn [run fold_left]. by rewrite shown_dialogs_Home.
Qed.

Lemma saved_snapshot_opens_dialog_witness :
  outstanding sharing_page <> []
  /\ JSON.parse (text saved) = inr (JObject [("snapshotId", JString "abc123")])
  /\ get_property (JObject [("snapshotId", JString "abc123")]) "snapshotId"
     = inr (Some (JString "abc123"))
  /\ "abc123" <> EmptyString
  /\ shown_dialogs (Home normal_props (hooks (step sharing_page (Settle (inr saved)))))
     = [JString "abc123"]
  /\ hasSaveRequest (hooks (step sharing_page (Settle (inr saved)))) = false
  /\ shown_dialogs
       (Home normal_props (hooks (run sharing_page [Settle (inr saved); Click clearSnapshot])))
     = [].
Proof.
  assert (outstanding sharing_page <> []) as H1 by discriminate.
  assert ("abc123" <> EmptyString) as H2 by discriminate.
  split; [exact H1|]. split; [reflexivity|]. split; [reflexivity|]. split; [exact H2|].
  apply (saved_snapshot_opens_dialog sharing_page saved
           (JObject [("snapshotId", JString "abc123")]) "abc123" normal_props);
    [exact H1 | reflexivity | reflexivity | exact H2].
Defined.

(** X11. When the outstanding save fails before an identifier is read
    (the request is rejected, the body of the response is not JSON, or
    it is the JSON null), the component keeps the snapshot identifier
    it had, so a dialog that was open stays as it was, nothing is sent
    again, and sharing is possible again. *)
Theorem failed_save_keeps_snapshot
    (b : Browser) (settled : result Response) (p : Props) :
  outstanding b <> [] ->
  ((exists e, settled = inl e)
   \/ (exists res e, settled = inr res /\ JSON.parse (text res) = inl e)
   \/ (exists res, settled = inr res /\ JSON.parse (text res) = inr JNull)) ->
  currentSnapshotId (hooks (step b (Settle settled))) = currentSnapshotId (hooks b)
  /\ shown_dialogs (Home p (hooks (step b (Settle settled))))
     = shown_dialogs (Home p (hooks b))
  /\ hasSaveRequest (hooks (step b (Settle settled))) = false
  /\ isSharingView (hooks (step b (Settle settled))) = false
  /\ sent (step b (Settle settled)) = sent b.
Proof.
  intros Ho Hfail.
  destruct (step_settle_outstanding b settled Ho) as (Hh & Hs & _).
  assert (exists e, share_chain settled = inl e) as [e Hc].
  { unfold share_chain.
    destruct Hfail as [(e & ->) | [(res & e & -> & Hp) | (res & -> & Hp)]];
      cbn [bind]; [eauto | |]; rewrite Hp; cbn [bind get_property]; eauto. }
  rewrite Hc in Hh. split_and!; [by rewrite Hh | | by rewrite Hh | by rewrite Hh | exact Hs].
  rewrite !shown_dialogs_Home. by rewrite Hh.
Qed.

Lemma failed_save_keeps_snapshot_witness :
  outstanding sharing_page <> []
  /\ currentSnapshotId
       (hooks (step sharing_page (Settle (inl (TypeError "Failed to fetch")))))
     = currentSnapshotId (hooks sharing_page)
  /\ shown_dialogs
       (Home normal_props
          (hooks (step sharing_page (Settle (inl (TypeError "Failed to fetch"))))))
     = shown_dialogs (Home normal_props (hooks sharing_page))
  /\ hasSaveRequest
       (hooks (step sharing_page (Settle (inl (TypeError "Failed to fetch"))))) = false
  /\ isSharingView
       (hooks (step sharing_page (Settle (inl (TypeError "Failed to fetch"))))) = false
  /\ sent (step sharing_page (Settle (inl (TypeError "Failed to fetch"))))
     = sent sharing_page.
Proof.
  assert (outstanding sharing_page <> []) as H1 by discriminate.
  split; [exact H1|].
  apply (failed_save_keeps_snapshot sharing_page (inl (TypeError "Failed to fetch"))
           normal_props); [exact H1 | left; eauto].
Defined.

(** X12. When the outstanding save settles with a JSON body that is not
    null and has no [snapshotId] (an object without that member, an
    array, a string, a number or a boolean), the snapshot identifier is
    reset to undefined: no dialog is shown afterwards, not even one that
    was open before. *)
Theorem response_without_snapshotId_closes_dialog
    (b : Browser) (res : Response) (v : json) (p : Props) :
  outstanding b <> [] ->
  JSON.parse (text res) = inr v ->
  get_property v "snapshotId" = inr None ->
  currentSnapshotId (hooks (step b (Settle (inr res)))) = None
  /\ shown_dialogs (Home p (hooks (step b (Settle (inr res))))) = []
  /\ hasSaveRequest (hooks (step b (Settle (inr res)))) = false.
Proof.
  intros Ho Hp Hg.
  destruct (step_settle_outstanding b (inr res) Ho) as (Hh & _ & _).
  assert (share_chain (inr res) = inr None) as Hc.
  { unfold share_chain. cbn [bind]. rewrite Hp. cbn [bind]. exact Hg. }
  rewrite Hc in Hh. split_and!; [by rewrite Hh | | by rewrite Hh].
  rewrite shown_dialogs_Home. by rewrite Hh.
Qed.

Lemma response_without_snapshotId_closes_dialog_witness :
  outstanding sharing_page <> []
  /\ JSON.parse (text {| status := 200; text := "{}" |}) = inr (JObject [])
  /\ get_property (JObject []) "snapshotId" = inr None
  /\ shown_dialogs (Home normal_props (hooks sharing_page)) = [JString "old"]
  /\ currentSnapshotId
       (hooks (step sharing_page (Settle (inr {| status := 200; text := "{}" |})))) = None
  /\ shown_dialogs
       (Home normal_props
          (hooks (step sharing_page (Settle (inr {| status := 200; text := "{}" |}))))) = []
  /\ hasSaveRequest
       (hooks (step sharing_page (Settle (inr {| status := 200; text := "{}" |})))) = false.
Proof.
  assert (outstanding sharing_page <> []) as H1 by discriminate.
  split; [exact H1|]. split; [reflexivity|]. split; [reflexivity|]. split; [reflexivity|].
  apply (response_without_snapshotId_closes_dialog sharing_page
           {| status := 200; text := "{}" |} (JObject []) normal_props);
    [exact H1 | reflexivity | reflexivity].
Defined.

(** ** Edit Capture, continued *)

Lemma length_select (s : Dom.child_selector) (n : Dom.node) :
  forall parent,
    (List.length (Dom.select s parent n)
     <= Dom.count (Dom.matches_simple (Dom.sel_child s)) n)%nat.
Proof.
  induction n as [data | tag attrs txt kids IH] using DomFacts.node_induction;
    intros parent; cbn [Dom.select Dom.count]; rewrite length_app.
  - destruct parent as [q|]; cbn [Dom.matches]; [|cbn; lia].
    destruct (Dom.matches_simple (Dom.sel_parent s) q),
      (Dom.matches_simple (Dom.sel_child s) (Dom.Text data)); cbn; lia.
  - assert (forall q, (List.length (flat_map (Dom.select s q) kids)
                       <= list_sum (List.map (Dom.count (Dom.matches_simple (Dom.sel_child s)))
                                      kids))%nat) as Hk.
    { intros q. induction IH as [|k kids Hk _ IHkids]; [done|].
      cbn [flat_map List.map list_sum fold_right]. rewrite length_app.
      specialize (Hk q). unfold list_sum in IHkids. lia. }
    specialize (Hk (Some (Dom.Element tag attrs txt kids))).
    destruct parent as [q|]; cbn [Dom.matches]; [|cbn; lia].
    destruct (Dom.matches_simple (Dom.sel_parent s) q),
      (Dom.matches_simple (Dom.sel_child s) (Dom.Element tag attrs txt kids));
      cbn [andb List.length]; lia.
Qed.

Lemma length_map_result {A B} (f : A -> result B) (l : list A) (bs : list B) :
  map_result f l = inr bs -> List.length bs = List.length l.
Proof.
  revert bs. induction l as [|a l IH]; intros bs; cbn [map_result].
  - by intros [= <-].
  - destruct (f a) as [e|b]; cbn [bind]; [done|].
    destruct (map_result f l) as [e|bs']; cbn [bind]; [done|].
    intros [= <-]. cbn [List.length]. by rewrite (IH bs').
Qed.

(** X13. Edit Capture returns at most one edit per element marked
    contenteditable=true: the number of captured edits never exceeds
    the number of such elements in the document. *)
Theorem capture_bounded_by_editable (root : Dom.node) :
  exists edits,
    persistContents root = inr edits
    /\ (List.length edits <= Dom.count is_editable root)%nat.
Proof.
  destruct (persistContents_total root) as [edits He]. exists edits. split; [done|].
  unfold persistContents, Dom.querySelectorAll in He.
  rewrite (length_map_result _ _ _ He). apply (length_select editable_selector).
Qed.

Lemma select_leaf (s : Dom.child_selector) (parent : option Dom.node) (k : Dom.node) :
  Dom.children_of k = [] ->
  Dom.select s parent k
  = if Dom.matches s parent k then [{| Dom.parentNode := parent; Dom.element := k |}] else [].
Proof.
  intros Hk. destruct k as [data | tag attrs txt kids]; cbn [Dom.select].
  - by rewrite app_nil_r.
  - cbn [Dom.children_of] in Hk. subst kids. cbn [flat_map]. by rewrite app_nil_r.
Qed.

(** X14. For a document that is one container with an id attribute and
    children without children of their own, Edit Capture returns one
    edit per child marked contenteditable=true, in order, each under the
    container's identifier: the container itself is never captured, and
    several editable children give several edits with the same
    identifier. *)
Theorem capture_flat_container
    (tag : string) (attrs : list (string * string)) (txt i : string)
    (kids : list Dom.node) :
  Dom.getAttribute "id" attrs = Some i ->
  Forall (fun k => Dom.children_of k = []) kids ->
  persistContents (Dom.Element tag attrs txt kids)
  = inr (List.map (fun k => {| id := i;
                               innerText := default EmptyString (Dom.innerText_of k) |})
           (List.filter is_editable kids)).
Proof.
  intros Hid Hleaf. unfold persistContents, Dom.querySelectorAll.
  cbn [Dom.select Dom.matches app].
  set (root := Dom.Element tag attrs txt kids).
  assert (Dom.matches_simple (Dom.HasAttr "id") root = true) as Hroot.
  { cbn. rewrite Hid. by apply bool_decide_eq_true. }
  assert (Dom.id_of root = Some i) as Hi by (cbn; by rewrite Hid).
  clearbody root.
  induction Hleaf as [|k kids Hk _ IH]; [done|].
  cbn [flat_map List.filter]. rewrite (select_leaf _ _ _ Hk).
  cbn [Dom.matches editable_selector Dom.sel_parent Dom.sel_child].
  rewrite Hroot. cbn [andb]. fold (is_editable k).
  destruct (is_editable k); cbn [app map_result List.map]; [|exact IH].
  unfold to_FieldEdit at 1. cbn [Dom.parentNode Dom.element]. rewrite Hi.
  cbn [bind default]. by rewrite IH.
Qed.

Lemma capture_flat_container_witness :
  Dom.getAttribute "id" [("id", "twin")] = Some "twin"
  /\ persistContents twin_container
     = inr [{| id := "twin"; innerText := "L" |}; {| id := "twin"; innerText := "R" |}].
Proof.
  split; [reflexivity|].
  apply (capture_flat_container "div" [("id", "twin")] "L R" "twin"
           [ Dom.Element "span" [("contenteditable", "true")] "L" [];
             Dom.Text " ";
             Dom.Element "span" [("contenteditable", "true")] "R" [] ]);
    [reflexivity | repeat constructor].
Defined.
